(** * manga-downloader: a model of [downloader.py] and its fetch layer

    The development embeds [MangaDownloader] (src/downloader.py) in Rocq.
    Side effects (HTTP requests, file-system access, logging) are threaded
    through an explicit [World]; every effect leaves an [event] in the
    world's trace, so that statements about the order of attempts or the
    absence of a request are statements about lists.  Exceptions are the
    [Raised] outcome of a small state-and-error monad.

    The coroutines of [_download] are modelled twice: [download_] runs one
    item from start to end, and [task_step] cuts the same body at its
    suspension point ([await download__(url)]), so that [asyncio.gather] can
    interleave the items of a batch. *)

From Stdlib Require Import ZArith Ascii.
From stdpp Require Import gmap strings list fin_maps pretty.

Set Warnings "-register-all".

(** ** Data *)

(** A [pathlib.Path], as the tuple of its [parts]: the names from left to
    right, an absolute path starting with its anchor ["/"].  The anchor is a
    part like another: a file system that holds absolute paths lists it as a
    directory. *)
Abbreviation Path := (list string).

(** [s.split('/')] *)
Fixpoint split_slash (s : string) : list string :=
  match s with
  | EmptyString => [EmptyString]
  | String c s' =>
      if Ascii.eqb c "/"%char
      then EmptyString :: split_slash s'
      else match split_slash s' with
           | [] => [String c EmptyString]
           | seg :: segs => String c seg :: segs
           end
  end.

(** The parts pathlib makes of a [str]: the anchor if the string starts with
    a slash (["//"] for exactly two of them), then the names between the
    slashes, the empty ones and ["."] dropped. *)
Definition parse_parts (s : string) : Path :=
  let names :=
    List.filter (λ seg, negb (String.eqb seg "") && negb (String.eqb seg "."))
                (split_slash s) in
  if String.prefix "/" s
  then (if String.prefix "//" s && negb (String.prefix "///" s)
        then "//" else "/") :: names
  else names.

(** [p / s]: the parts of [s] are appended to [p], unless [s] is absolute,
    which discards [p]. *)
Definition path_div (p : Path) (s : string) : Path :=
  if String.prefix "/" s then parse_parts s else p ++ parse_parts s.
Infix "/:" := path_div (at level 40, left associativity).

(** A string that is one name of a path: not empty, not ["."], without a
    slash. *)
Fixpoint no_slash (s : string) : bool :=
  match s with
  | EmptyString => true
  | String c s' => negb (Ascii.eqb c "/"%char) && no_slash s'
  end.

Definition plain (s : string) : bool :=
  no_slash s && negb (String.eqb s "") && negb (String.eqb s ".").

(** [Path.parent]: the path without its last component; the root is its own
    parent. *)
Definition parent (p : Path) : Path := removelast p.

(** Bytes of a response body, and of a file. *)
Abbreviation bytes := (list Byte.byte).

(** An HTTP request as the program issues it: the URL and the headers the
    caller passes (the defaults a client library adds on its own never
    include a referer and are left out). *)
Record Request := mkRequest {
  req_url : string;
  req_headers : list (string * string)
}.

(** What the network answers: no answer at all (connection failure,
    timeout), or a response with a status code and a body. *)
Inductive Reply :=
| ConnFail
| Resp (status : Z) (body : bytes).

(** The two HTTP clients of the source. *)
Inductive client := Requests | Aiohttp.

(** Exceptions.  [ExFailed to_path exceptions] stands for
    [Exception(f'Failed to download {to_path}: {exceptions}')]: the message is
    the rendering of these two operands, which are kept as they are. *)
Inductive exn :=
| ExNotMangalib                       (* Exception("URL is not from mangalib.me") *)
| ExRequests                          (* whatever requests.get raises without an answer *)
| ExParse                             (* the page lacks the embedded structure: the
                                         IndexError of findall(...)[0], the error of
                                         json.loads, or, in get_chapter_pages, of a
                                         subscript; they are not told apart *)
| ExKeyError (key : string)           (* data[key] on a dict without the key *)
| ExTypeError                         (* a subscript or '+' on a value of another type *)
| ExClientConnection                  (* aiohttp: no answer *)
| ExClientResponse (status : Z)       (* response.raise_for_status() *)
| ExEmptyResponse                     (* Exception('Empty response') *)
| ExOSError (p : Path)                (* mkdir(p) or open(p) failed *)
| ExFailed (to_path : Path) (exceptions : list (string * exn)).

(** Entries of the file system. *)
Inductive node :=
| File (content : bytes)
| Dir.

(** Log records keep the operands of the formatted message. *)
Inductive level := Debug | Info | Error.

Inductive logmsg :=
| LGettingPages (chapter_url : string)
| LSkipping (to_path : Path)
| LDownloading (url : string) (to_path : Path)
| LDownloaded (url : string) (to_path : Path)
| LException (e : exn)
| LFailedInfo
| LChapterStart (number name : string)
| LChapterEnd (number name : string).

Inductive event :=
| EvGet (c : client) (r : Request)
| EvExists (p : Path)
| EvMkdir (p : Path)
| EvWrite (p : Path) (data : bytes)
| EvLog (l : level) (m : logmsg).

(** The world: the file system (the root [[]] is always a directory) and the
    trace of effects so far, oldest first. *)
Record World := mkWorld {
  fs : gmap Path node;
  trace : list event
}.

(** ** The monad *)

Inductive outcome (A : Type) :=
| Returned (a : A)
| Raised (e : exn).
Arguments Returned {A} a.
Arguments Raised {A} e.

Definition M (A : Type) : Type := World → outcome A * World.

Definition ret {A} (a : A) : M A := λ w, (Returned a, w).
Definition raise {A} (e : exn) : M A := λ w, (Raised e, w).

Definition bind {A B} (m : M A) (k : A → M B) : M B :=
  λ w, match m w with
       | (Returned a, w') => k a w'
       | (Raised e, w') => (Raised e, w')
       end.

(** [try: m except Exception as e: h e] *)
Definition catch {A} (m : M A) (h : exn → M A) : M A :=
  λ w, match m w with
       | (Returned a, w') => (Returned a, w')
       | (Raised e, w') => h e w'
       end.

Declare Scope py_scope.
Delimit Scope py_scope with py.
Notation "'let*' x ':=' m 'in' k" := (bind m (λ x, k))
  (at level 10, x name, m at level 100, k at level 200) : py_scope.
Notation "m ;; k" := (bind m (λ _, k))
  (at level 100, right associativity) : py_scope.
Open Scope py_scope.

(** Appending one event to the trace. *)
Definition say (ev : event) (w : World) : World :=
  mkWorld (fs w) (trace w ++ [ev]).

Definition emit (ev : event) : M () := λ w, (Returned (), say ev w).

Definition log (l : level) (m : logmsg) : M () := emit (EvLog l m).

(** A value a Python function hands back, as far as this program goes. *)
Inductive pyval :=
| PyNone
| PyBytes (b : bytes)
| PyInt (n : nat)
| PyPair (a b : pyval).

(** ** The file system *)

Definition is_dir (f : gmap Path node) (p : Path) : bool :=
  match p with
  | [] => true
  | _ => match f !! p with Some Dir => true | _ => false end
  end.

Definition exists_at (f : gmap Path node) (p : Path) : bool :=
  match p with
  | [] => true
  | _ => match f !! p with Some _ => true | None => false end
  end.

(** [Path.mkdir(parents=True, exist_ok=True)] for the directory
    [cur ++ rest], whose part [cur] has been walked: a missing ancestor is
    created, a directory that is already there is accepted, and a regular file
    in the way makes [os.mkdir] fail, an [OSError] for the directory that was
    asked for. *)
Fixpoint mkdir_from (cur : Path) (rest : list string) (f : gmap Path node)
  : outcome (gmap Path node) :=
  match rest with
  | [] => Returned f
  | c :: rest' =>
      let d := cur ++ [c] in
      match f !! d with
      | Some (File _) => Raised (ExOSError (cur ++ rest))
      | Some Dir => mkdir_from d rest' f
      | None => mkdir_from d rest' (<[d := Dir]> f)
      end
  end.

Definition mkdir_parents (p : Path) : M () :=
  emit (EvMkdir p) ;;
  λ w, match mkdir_from [] p (fs w) with
       | Returned f' => (Returned (), mkWorld f' (trace w))
       | Raised e => (Raised e, w)
       end.

(** [to_path.exists()] *)
Definition path_exists (p : Path) : M bool :=
  emit (EvExists p) ;; λ w, (Returned (exists_at (fs w) p), w).

(** [with open(to_path, 'wb') as f: f.write(page)]: the file is created or
    truncated when its parent is a directory and it is not one itself. *)
Definition write_file (p : Path) (data : bytes) : M () :=
  emit (EvWrite p data) ;;
  λ w, if is_dir (fs w) (parent p) && negb (is_dir (fs w) p)
       then (Returned (), mkWorld (<[p := File data]> (fs w)) (trace w))
       else (Raised (ExOSError p), w).

(** ** The catalog *)

(** One element of [data['chapters']] and the part of [window.__DATA__] the
    program reads.  The fields are text: the program joins them into paths
    and renders them in f-strings, which leave a [str] as it is. *)
Record raw_chapter := mkRaw {
  chapter_name : string;
  chapter_volume : string;
  chapter_number : string
}.

Record manga_data := mkData {
  slug : string;                    (* data['manga']['slug'] *)
  chapters_raw : list raw_chapter   (* data['chapters'] *)
}.

(** An element of [self.chapters]. *)
Record chapter := mkChapter {
  name : string;
  volume : string;
  number : string;
  url : string
}.

(** [window.__info]: [info['servers'].values()] in the dict's order, and
    [info['img']['url']]. *)
Record chapter_info := mkInfo {
  servers : list string;
  img_url : string
}.

(** What [json.loads] made of [window.__DATA__], as far as the program reads
    it: a catalog with the keys and the shapes that [_parse_chapters]
    subscripts, or a value on which one of these subscripts raises, a
    [KeyError] for the key that is missing or else a [TypeError]. *)
Inductive catalog_json :=
| Catalog (d : manga_data)
| Malformed (missing : option string).

Record MangaDownloader := mkDownloader {
  data : manga_data;
  chapters : list chapter
}.

Definition base_url : string := "https://mangalib.me/".

Section Program.

(** The network, and the three extractions ([re.findall] followed by
    [json.loads]) the program applies to a fetched page; [None] is a page
    without the embedded structure. *)
Variable net : Request → Reply.
Variable find_data : string → option catalog_json.
Variable find_pg : string → option (list string).      (* the ['u'] of each page *)
Variable find_info : string → option chapter_info.

(** [requests.get(url).text]: no headers are passed and the status is not
    looked at. *)
Definition requests_get_text (u : string) : M string :=
  emit (EvGet Requests (mkRequest u [])) ;;
  match net (mkRequest u []) with
  | ConnFail => raise ExRequests
  | Resp _ body => ret (String.string_of_list_byte body)
  end.

Definition _get_manga_data (manga_url : string) : M catalog_json :=
  let* html := requests_get_text manga_url in
  match find_data html with
  | Some raw => ret raw
  | None => raise ExParse
  end.

Definition _parse_chapters (d : manga_data) : list chapter :=
  let base := base_url +:+ slug d in
  (λ c, mkChapter (chapter_name c) (chapter_volume c) (chapter_number c)
          (base +:+ "/v" +:+ chapter_volume c +:+ "/c" +:+ chapter_number c))
  <$> reverse (chapters_raw d).

(** The constructor.  Only the fetch of the catalog is inside the [try]:
    [_parse_chapters] runs after it, so the exception of a subscript is raised
    as it is, with nothing logged. *)
Definition __init__ (manga_url : string) : M MangaDownloader :=
  if negb (String.prefix base_url manga_url) then raise ExNotMangalib
  else
    let* raw := catch (_get_manga_data manga_url)
                      (λ e, log Error LFailedInfo ;; raise e) in
    match raw with
    | Catalog d => ret (mkDownloader d (_parse_chapters d))
    | Malformed (Some key) => raise (ExKeyError key)
    | Malformed None => raise ExTypeError
    end.

(** [get_chapter_pages].  [find_pg] and [find_info] stand for the two
    extractions together with the subscripts the comprehension applies to
    their results; a page on which one of them raises (an [IndexError], an
    error of [json.loads], a [KeyError] or a [TypeError]) is a page for which
    they give [None], and the exception is [ExParse], whichever it was. *)
Definition get_chapter_pages (chapter_url : string) : M (list (list string)) :=
  log Debug (LGettingPages chapter_url) ;;
  let* html := requests_get_text chapter_url in
  match find_pg html, find_info html with
  | Some pages, Some info =>
      ret ((λ p, (λ s, s +:+ "/" +:+ img_url info +:+ p) <$> servers info) <$> pages)
  | _, _ => raise ExParse
  end.

(** *** [_download]: one mirror *)

Definition image_request (u : string) : Request :=
  mkRequest u [("referer", "https://mangalib.me/")].

(** [response.ok] of aiohttp: the status is below 400. *)
Definition ok (status : Z) : bool := (status <? 400)%Z.

(** What [download__] makes of the answer: [raise_for_status], then the
    check of the body. *)
Definition receive (r : Reply) : outcome bytes :=
  match r with
  | ConnFail => Raised ExClientConnection
  | Resp status body =>
      if negb (ok status) then Raised (ExClientResponse status)
      else match body with
           | [] => Raised ExEmptyResponse
           | _ => Returned body
           end
  end.

Definition fetch (u : string) : outcome bytes := receive (net (image_request u)).

Definition lift {A} (o : outcome A) : M A := λ w, (o, w).

Definition download__ (u : string) : M bytes :=
  emit (EvGet Aiohttp (image_request u)) ;; lift (fetch u).

(** *** [_download]: one item *)

(** The [for url in urls] loop with its [try] / [except]; [exceptions] is the
    list built so far. *)
Fixpoint try_mirrors (to_path : Path) (urls : list string)
    (exceptions : list (string * exn)) : M pyval :=
  match urls with
  | [] => raise (ExFailed to_path exceptions)
  | u :: rest =>
      catch
        (log Debug (LDownloading u to_path) ;;
         let* page := download__ u in
         write_file to_path page ;;
         log Debug (LDownloaded u to_path) ;;
         ret PyNone)
        (λ e, log Error (LException e) ;;
              try_mirrors to_path rest (exceptions ++ [(u, e)]))
  end.

Definition download_ (to_path : Path) (urls : list string) : M pyval :=
  let* present := path_exists to_path in
  if present then log Debug (LSkipping to_path) ;; ret PyNone
  else
    mkdir_parents (parent to_path) ;;
    try_mirrors to_path urls [].

(** *** [_download]: the items of a batch as tasks

    The body of [download_] suspends only inside [await download__(url)].
    A task is therefore either not started, suspended on the request to one
    mirror (with the mirrors still to try and the exceptions collected so
    far), or finished. *)
Inductive task :=
| TReady (to_path : Path) (urls : list string)
| TAwait (to_path : Path) (u : string) (rest : list string)
         (exceptions : list (string * exn))
| TDone (v : pyval)
| TFailed (e : exn).

(** Entering the next iteration of the loop: the request to the next mirror
    is sent and the task suspends, or the loop is over and the task raises. *)
Definition next_mirror (to_path : Path) (urls : list string)
    (exceptions : list (string * exn)) (w : World) : task * World :=
  match urls with
  | [] => (TFailed (ExFailed to_path exceptions), w)
  | u :: rest =>
      (TAwait to_path u rest exceptions,
       say (EvGet Aiohttp (image_request u))
         (say (EvLog Debug (LDownloading u to_path)) w))
  end.

(** One slice of a task, from where it stands to its next suspension. *)
Definition task_step (t : task) (w : World) : task * World :=
  match t with
  | TReady to_path urls =>
      let w1 := say (EvExists to_path) w in
      if exists_at (fs w1) to_path
      then (TDone PyNone, say (EvLog Debug (LSkipping to_path)) w1)
      else match mkdir_parents (parent to_path) w1 with
           | (Returned _, w2) => next_mirror to_path urls [] w2
           | (Raised e, w2) => (TFailed e, w2)
           end
  | TAwait to_path u rest exceptions =>
      match (let* page := lift (fetch u) in
             write_file to_path page ;;
             log Debug (LDownloaded u to_path) ;;
             ret PyNone) w with
      | (Returned v, w') => (TDone v, w')
      | (Raised e, w') =>
          next_mirror to_path rest (exceptions ++ [(u, e)])
            (say (EvLog Error (LException e)) w')
      end
  | TDone _ | TFailed _ => (t, w)
  end.

Definition finished (t : task) : bool :=
  match t with TDone _ | TFailed _ => true | _ => false end.

Definition done (t : task) : bool :=
  match t with TDone _ => true | _ => false end.

(** The slices of the tasks that the event loop runs, in the order of
    [schedule] (positions in the batch); a position whose task is over, or
    that names no task, is passed over.  [raised] is the exception that
    [gather] holds for its caller: the one of the first task that raised.  No
    task is cancelled when another one raises; the tasks go on as the loop
    resumes them. *)
Fixpoint run_slices (schedule : list nat) (raised : option exn)
    (ts : list task) (w : World) : option exn * list task * World :=
  match schedule with
  | [] => (raised, ts, w)
  | i :: schedule' =>
      match ts !! i with
      | Some t =>
          if finished t then run_slices schedule' raised ts w
          else
            let '(t', w') := task_step t w in
            run_slices schedule'
              (match raised, t' with
               | None, TFailed e => Some e
               | _, _ => raised
               end)
              (<[i := t']> ts) w'
      | None => run_slices schedule' raised ts w
      end
  end.

(** [await asyncio.gather] of the tasks, without [return_exceptions].
    [schedule] lists the slices the loop runs until the caller is resumed.
    The caller then gets the first exception a task has raised, if one has,
    wherever the other tasks stand; it gets the results when every task has
    returned; [None] is a schedule that ends before the call does. *)
Definition gather (schedule : list nat) (ts : list task) (w : World)
  : option (outcome pyval) * list task * World :=
  let '(raised, ts', w') := run_slices schedule None ts w in
  (match raised with
   | Some e => Some (Raised e)
   | None => if forallb done ts' then Some (Returned PyNone) else None
   end, ts', w').

Definition create_tasks (items : list (Path * list string)) : list task :=
  (λ it, TReady it.1 it.2) <$> items.

(** [_download]: the tasks are created in the order of the items, so the
    loop runs their first slices in that order before it processes any
    answer; [schedule] is the order in which the tasks are resumed after
    that. *)
Definition _download (schedule : list nat) (items : list (Path * list string))
    (w : World) : option (outcome pyval) * list task * World :=
  gather (seq 0 (length items) ++ schedule) (create_tasks items) w.

(** *** [download] *)

(** The items of one chapter; [path] is the output root joined with the
    work's slug. *)
Definition chapter_items (path : Path) (ch : chapter)
    (pages : list (list string)) : list (Path * list string) :=
  imap (λ i page_urls, (path /: number ch /: (pretty i +:+ ".jpg"), page_urls))
       pages.

(** [download_chapter]: the pages are resolved, one item is built per page
    and the batch is run.  [max_requests] only sets the limit of the session's
    connector; [_download] itself creates one task per item, all at once. *)
Definition download_chapter (path : Path) (ch : chapter) (schedule : list nat)
    (w : World) : option (outcome pyval) * World :=
  match get_chapter_pages (url ch) w with
  | (Returned pages, w1) =>
      let '(r, _, w2) := _download schedule (chapter_items path ch pages) w1 in
      (r, w2)
  | (Raised e, w1) => (Some (Raised e), w1)
  end.

(** The [for chapter in self.chapters] loop; one schedule per chapter. *)
Fixpoint download_chapters (path : Path) (chs : list chapter)
    (schedules : list (list nat)) (w : World) : option (outcome pyval) * World :=
  match chs with
  | [] => (Some (Returned PyNone), w)
  | ch :: chs' =>
      let w0 := say (EvLog Info (LChapterStart (number ch) (name ch))) w in
      match download_chapter path ch (hd [] schedules) w0 with
      | (Some (Returned _), w1) =>
          download_chapters path chs' (tl schedules)
            (say (EvLog Info (LChapterEnd (number ch) (name ch))) w1)
      | r => r
      end
  end.

Definition download (self : MangaDownloader) (path : Path)
    (schedules : list (list nat)) : World → option (outcome pyval) * World :=
  download_chapters (path /: slug (data self)) (chapters self) schedules.

End Program.

(** ** Reading the results *)

(** The chapter built from one raw element, written the way the URL reads. *)
Definition chapter_of (slug : string) (c : raw_chapter) : chapter :=
  mkChapter (chapter_name c) (chapter_volume c) (chapter_number c)
    ("https://mangalib.me" +:+ "/" +:+ slug +:+ "/v" +:+ chapter_volume c
       +:+ "/c" +:+ chapter_number c).


(** The URLs requested through the aiohttp session, in the order of the
    requests. *)
Definition requested (tr : list event) : list string :=
  omap (λ ev, match ev with
              | EvGet Aiohttp r => Some (req_url r)
              | _ => None
              end) tr.

(** The files written, in order. *)
Definition written (tr : list event) : list Path :=
  omap (λ ev, match ev with EvWrite p _ => Some p | _ => None end) tr.

(** The [referer] header of a request, if it has one. *)
Definition referer (r : Request) : option string :=
  snd <$> List.find (λ h, String.eqb h.1 "referer") (req_headers r).

(** The events of one attempt on mirror [ue.1] that fails with [ue.2], and
    of one attempt on [u] that yields [page]. *)
Definition failed_attempt (to_path : Path) (ue : string * exn) : list event :=
  [EvLog Debug (LDownloading ue.1 to_path);
   EvGet Aiohttp (image_request ue.1);
   EvLog Error (LException ue.2)].

Definition good_attempt (to_path : Path) (u : string) (page : bytes) : list event :=
  [EvLog Debug (LDownloading u to_path);
   EvGet Aiohttp (image_request u);
   EvWrite to_path page;
   EvLog Debug (LDownloaded u to_path)].

(** What the pipeline of the item with target [to_path] may leave in the
    trace: checks and writes at its own target, the creation of the target's
    parent, requests through the session with the referer header, and log
    records. *)
Definition item_event (to_path : Path) (ev : event) : Prop :=
  match ev with
  | EvGet c r => c = Aiohttp ∧ r = image_request (req_url r)
  | EvExists p => p = to_path
  | EvMkdir p => p = parent to_path
  | EvWrite p _ => p = to_path
  | EvLog _ _ => True
  end.

(** A request of the batch goes through the aiohttp session and carries the
    referer header; other events are not requests. *)
Definition session_event (ev : event) : Prop :=
  match ev with
  | EvGet c r => c = Aiohttp ∧ referer r = Some "https://mangalib.me/"
  | _ => True
  end.

(** What the task of item [it] can be: it works on the item's target, the
    mirrors behind it and ahead of it are the item's mirror list, and when it
    raises the loop's failure, the failure lists the item's mirrors. *)
Definition item_task (it : Path * list string) (t : task) : Prop :=
  match t with
  | TReady to_path urls => to_path = it.1 ∧ urls = it.2
  | TAwait to_path u rest exceptions =>
      to_path = it.1 ∧ exceptions.*1 ++ u :: rest = it.2
  | TDone v => v = PyNone
  | TFailed e =>
      (∃ exceptions, e = ExFailed it.1 exceptions ∧ exceptions.*1 = it.2) ∨
      e = ExOSError (parent it.1)
  end.

Definition failed (t : task) : bool :=
  match t with TFailed _ => true | _ => false end.

(** The number of slices a task can still take. *)
Definition remaining (t : task) : nat :=
  match t with
  | TReady _ urls => S (length urls)
  | TAwait _ _ rest _ => S (length rest)
  | TDone _ | TFailed _ => 0
  end.

(** A task run on its own for [fuel] slices. *)
Fixpoint run_task (net : Request → Reply) (fuel : nat) (t : task) (w : World)
  : task * World :=
  match fuel with
  | 0 => (t, w)
  | S fuel' => let '(t', w') := task_step net t w in run_task net fuel' t' w'
  end.

Definition task_of_outcome (o : outcome pyval) : task :=
  match o with Returned v => TDone v | Raised e => TFailed e end.

(** The URLs fetched with [requests.get], in the order of the requests. *)
Definition resolved (tr : list event) : list string :=
  omap (λ ev, match ev with
              | EvGet Requests r => Some (req_url r)
              | _ => None
              end) tr.

(** What a batch may leave in the trace on behalf of the item [it]: checks
    at the item's target, the creation of its parent, requests to the item's
    own mirrors, writes at the item's target of a non-empty body one of its
    mirrors serves, and the log records of the item's pipeline. *)
Definition of_item (net : Request → Reply) (it : Path * list string)
    (ev : event) : Prop :=
  match ev with
  | EvGet c r => c = Aiohttp ∧ r = image_request (req_url r) ∧ req_url r ∈ it.2
  | EvExists p => p = it.1
  | EvMkdir p => p = parent it.1
  | EvWrite p page =>
      p = it.1 ∧ page ≠ [] ∧ ∃ u, u ∈ it.2 ∧ fetch net u = Returned page
  | EvLog _ m =>
      match m with
      | LSkipping _ | LDownloading _ _ | LDownloaded _ _ | LException _ => True
      | _ => False
      end
  end.

Definition batch_event (net : Request → Reply)
    (items : list (Path * list string)) (ev : event) : Prop :=
  ∃ it, it ∈ items ∧ of_item net it ev.

(** The answer of [gather] a task list stands for once no task is left to
    run: the first failure if there is one. *)
Definition answer_of (t : task) : outcome pyval :=
  match t with
  | TFailed e => Raised e
  | _ => Returned PyNone
  end.

(** ** Concrete worlds, used by the worked examples *)

Definition bs (s : string) : bytes := String.list_byte_of_string s.

(** A network on which two mirrors serve an image, one answers with an empty
    body, one cannot be reached, and everything else is a 404. *)
Definition net0 (r : Request) : Reply :=
  if String.eqb (req_url r) "good://y" then Resp 200 (bs "Y")
  else if String.eqb (req_url r) "good://z" then Resp 200 (bs "Z")
  else if String.eqb (req_url r) "empty://e" then Resp 200 []
  else if String.eqb (req_url r) "down://d" then ConnFail
  else Resp 404 (bs "not found").

Definition no_data (html : string) : option catalog_json := None.
Definition no_pg (html : string) : option (list string) := None.
Definition no_info (html : string) : option chapter_info := None.

(** A catalog of three chapters, newest first, as the site lists them. *)
Definition data0 : manga_data :=
  mkData "jojo" [mkRaw "Last" "24" "95"; mkRaw "Middle" "24" "94"; mkRaw "First" "1" "1"].

(** Nothing on disk, nothing done yet. *)
Definition w0 : World := mkWorld ∅ [].

(** The target of the first page is already on disk. *)
Definition w_have : World :=
  mkWorld (<[["out"; "0.jpg"] := File (bs "old")]> (<[["out"] := Dir]> ∅)) [].

(** The order in which the loop resumes the tasks of [batch5] when, after
    their first slices, the answers come back for the third page, the first
    page, and the third page again. *)
Definition schedule5 : list nat := [2; 0; 2].


(** A network that answers every request with status 300 and a body. *)
Definition net_choices (r : Request) : Reply := Resp 300 (bs "choose one").

(** A batch of five pages; the mirrors of the third all fail. *)
Definition batch5 : list (Path * list string) :=
  [(["out"; "0.jpg"], ["good://y"]);
   (["out"; "1.jpg"], ["bad://a"; "good://z"]);
   (["out"; "2.jpg"], ["bad://x"; "empty://e"]);
   (["out"; "3.jpg"], ["good://z"]);
   (["out"; "4.jpg"], ["good://y"])].

(** A site with a catalog page and one chapter page; what is not a page of
    the site is answered by [net0], except that every URL under [cdn://]
    serves an image. *)
Definition net_site (r : Request) : Reply :=
  if String.eqb (req_url r) "https://mangalib.me/jojo" then Resp 200 (bs "catalog")
  else if String.eqb (req_url r) "https://mangalib.me/jojo/v1/c1"
       then Resp 200 (bs "chapter")
  else if String.prefix "cdn://" (req_url r) then Resp 200 (bs "IMG")
  else net0 r.

Definition find_pg0 (html : string) : option (list string) :=
  if String.eqb html "chapter" then Some ["/0.png"; "/1.png"] else None.

Definition find_info0 (html : string) : option chapter_info :=
  if String.eqb html "chapter"
  then Some (mkInfo ["bad://x"; "cdn://main"] "img/jojo") else None.

(** The downloader the constructor builds from [data0], and the order in
    which the two pages of its first chapter are resumed when every answer
    comes back in the order of the requests. *)
Definition md0 : MangaDownloader := mkDownloader data0 (_parse_chapters data0).

Definition schedule2 : list nat := [0; 1; 0; 1].

(** A regular file stands where the directory of the pages should be. *)
Definition w_blocked : World :=
  mkWorld (<[["out"] := File (bs "not a directory")]> ∅) [].

(** Running a computation of the monad: the combinators are unfolded
    wherever they stand. *)
Ltac py_run :=
  cbv beta iota delta
    [bind catch ret raise lift emit log say write_file path_exists
     mkdir_parents download__ requests_get_text];
  simpl.

(** * Properties *)

(** ** The monad and the trace *)

Lemma say_fs ev w : fs (say ev w) = fs w.
Proof. reflexivity. Qed.

Lemma say_trace ev w : trace (say ev w) = trace w ++ [ev].
Proof. reflexivity. Qed.

Lemma world_eta w : mkWorld (fs w) (trace w) = w.
Proof. by destruct w. Qed.


(** ** [download__] *)

Lemma ok_false status : ok status = false ↔ (400 ≤ status)%Z.
Proof. unfold ok. rewrite Z.ltb_ge. done. Qed.

Lemma receive_nonempty r b : receive r = Returned b → b ≠ [].
Proof.
  destruct r as [|status body]; simpl; [done|].
  destruct (ok status); simpl; [|done].
  destruct body; [done|]. by intros [= <-].
Qed.

(** C6 (as amended).  [download__] sends exactly one request and does
    nothing else (no second attempt, no write).  The transport error
    [ClientResponseError] is raised for the statuses [raise_for_status]
    rejects, which are those of 400 and above, not every status that is not a
    success: a response with any lower status is accepted.  An accepted
    response with a zero-length body raises the empty-content error, an
    accepted response with a body returns that body; so a zero-length body is
    never returned. *)
Theorem download___single_attempt net u w :
  (download__ net u w).2 = say (EvGet Aiohttp (image_request u)) w ∧
  match net (image_request u) with
  | ConnFail => (download__ net u w).1 = Raised ExClientConnection
  | Resp status body =>
      ((400 ≤ status)%Z →
         (download__ net u w).1 = Raised (ExClientResponse status)) ∧
      ((status < 400)%Z → body = [] →
         (download__ net u w).1 = Raised ExEmptyResponse) ∧
      ((status < 400)%Z → body ≠ [] →
         (download__ net u w).1 = Returned body)
  end ∧
  (download__ net u w).1 ≠ Returned [].
Proof.
  unfold download__, bind, emit, lift, fetch. simpl.
  split; [done|]. split.
  - destruct (net (image_request u)) as [|status body]; simpl; [done|].
    unfold ok. destruct (Z.ltb_spec status 400); simpl.
    + split; [lia|]. split; [by intros _ ->|].
      intros _ Hb. by destruct body.
    + split; [done|]. split; intros; lia.
  - intros H. by apply receive_nonempty in H.
Qed.

Lemma download___single_attempt_witness :
  (download__ net0 "bad://x" w0).1 = Raised (ExClientResponse 404) ∧
  (download__ net0 "empty://e" w0).1 = Raised ExEmptyResponse ∧
  (download__ net0 "good://y" w0).1 = Returned (bs "Y") ∧
  trace (download__ net0 "good://y" w0).2 = [EvGet Aiohttp (image_request "good://y")].
Proof.
  split; [|split; [|split]].
  - apply (proj1 (proj1 (proj2 (download___single_attempt net0 "bad://x" w0)))).
    vm_compute. discriminate.
  - apply (proj1 (proj2 (proj1 (proj2 (download___single_attempt net0 "empty://e" w0)))));
      reflexivity.
  - apply (proj2 (proj2 (proj1 (proj2 (download___single_attempt net0 "good://y" w0)))));
      [reflexivity | discriminate].
  - rewrite (proj1 (download___single_attempt net0 "good://y" w0)). reflexivity.
Defined.

(** C6, as the specification words it, fails: a response whose status is
    not a success but is below 400 (here 300, which aiohttp does not follow as
    a redirect) raises nothing, and its body is returned as the content of the
    image. *)
Lemma download___accepts_status_below_400 :
  net_choices (image_request "good://y") = Resp 300 (bs "choose one") ∧
  (download__ net_choices "good://y" w0).1 = Returned (bs "choose one") ∧
  (download_ net_choices ["out"; "0.jpg"] ["good://y"] w0).1 = Returned PyNone ∧
  fs (download_ net_choices ["out"; "0.jpg"] ["good://y"] w0).2 !! ["out"; "0.jpg"] =
    Some (File (bs "choose one")).
Proof. repeat split; reflexivity. Qed.

(** ** The constructor *)

(** C10.  A URL that does not start with ['https://mangalib.me/'] makes the
    constructor raise at once: the world is the one it was given, so no
    request was sent, nothing was logged and nothing was written. *)
Theorem init_rejects_foreign_url net find_data manga_url w :
  String.prefix base_url manga_url = false →
  __init__ net find_data manga_url w = (Raised ExNotMangalib, w).
Proof. intros H. unfold __init__. by rewrite H. Qed.

Lemma init_rejects_foreign_url_witness :
  __init__ net0 no_data "https://example.org/manga" w0 = (Raised ExNotMangalib, w0).
Proof. apply init_rejects_foreign_url. reflexivity. Defined.

(** ** The chapter list *)

Lemma string_app_cons a (s t : string) : String a s +:+ t = String a (s +:+ t).
Proof. reflexivity. Qed.

Lemma _parse_chapters_map d :
  _parse_chapters d = chapter_of (slug d) <$> reverse (chapters_raw d).
Proof.
  unfold _parse_chapters. apply list_fmap_ext. intros _ c _.
  unfold chapter_of. by f_equal.
Qed.

(** C9.  [self.chapters] is the catalog's chapter array reversed: there are
    as many chapters as raw elements, chapter [i] is built from raw element
    [n-1-i], its name, volume and number are copied and its URL is
    [https://mangalib.me/<slug>/v<volume>/c<number>].  The object the
    constructor returns carries this list, and [download] walks it from
    its head. *)
Theorem parse_chapters_reversed d :
  length (_parse_chapters d) = length (chapters_raw d) ∧
  (∀ i c, i < length (chapters_raw d) →
     chapters_raw d !! (length (chapters_raw d) - 1 - i) = Some c →
     _parse_chapters d !! i = Some (chapter_of (slug d) c)) ∧
  (∀ net find_data manga_url w self w',
     __init__ net find_data manga_url w = (Returned self, w') →
     chapters self = chapter_of (slug (data self)) <$> reverse (chapters_raw (data self))) ∧
  (∀ net find_pg find_info self path schedules w,
     download net find_pg find_info self path schedules w =
     download_chapters net find_pg find_info (path /: slug (data self))
       (chapters self) schedules w).
Proof.
  rewrite _parse_chapters_map. split; [|split; [|split]].
  - by rewrite length_fmap, length_reverse.
  - intros i c Hi Hc.
    rewrite list_lookup_fmap, reverse_lookup by done.
    replace (length (chapters_raw d) - S i) with (length (chapters_raw d) - 1 - i) by lia.
    by rewrite Hc.
  - intros net find_data manga_url w self w'. unfold __init__.
    destruct (negb _); [done|]. unfold bind, catch.
    destruct (_get_manga_data _ _ _ _) as [[[d'|[key|]]|e] w1]; simpl;
      unfold ret, raise; try done.
    intros [= <- _]. simpl. apply _parse_chapters_map.
  - done.
Qed.

Lemma parse_chapters_reversed_witness :
  _parse_chapters data0 !! 0 =
    Some (mkChapter "First" "1" "1" "https://mangalib.me/jojo/v1/c1").
Proof.
  apply (proj1 (proj2 (parse_chapters_reversed data0)) 0 (mkRaw "First" "1" "1"));
    [simpl; lia | reflexivity].
Defined.

(** ** The items of a chapter *)

Lemma string_app_length (s t : string) :
  String.length (s +:+ t) = String.length s + String.length t.
Proof.
  induction s as [|a s IH]; [done|].
  rewrite string_app_cons. simpl. by f_equal.
Qed.

Lemma string_app_inj_r (s s' t : string) : s +:+ t = s' +:+ t → s = s'.
Proof.
  revert s'. induction s as [|a s IH]; intros [|b s'] H; [done| | |].
  - apply (f_equal String.length) in H.
    rewrite (string_app_length (String b s')) in H.
    change ("" +:+ t) with t in H. simpl in H. lia.
  - apply (f_equal String.length) in H.
    rewrite (string_app_length (String a s)) in H.
    change ("" +:+ t) with t in H. simpl in H. lia.
  - rewrite !string_app_cons in H. injection H as -> H. f_equal. by apply IH.
Qed.

Lemma split_slash_no_slash s : no_slash s = true → split_slash s = [s].
Proof.
  induction s as [|c s IH]; [done|]. simpl.
  destruct (Ascii.eqb c "/"); simpl; [done|]. intros H. by rewrite IH.
Qed.

Lemma prefix_slash_no_slash s : no_slash s = true → String.prefix "/" s = false.
Proof.
  destruct s as [|c s]; [done|]. intros H.
  change (no_slash (String c s)) with (negb (Ascii.eqb c "/") && no_slash s) in H.
  change (String.prefix "/" (String c s))
    with (match ascii_dec "/" c with
          | left _ => String.prefix "" s
          | right _ => false
          end).
  destruct (ascii_dec "/" c) as [<-|]; [|done].
  by rewrite Ascii.eqb_refl in H.
Qed.

Lemma parse_parts_plain s : plain s = true → parse_parts s = [s].
Proof.
  unfold plain, parse_parts. intros H.
  apply andb_prop in H as [H Hdot]. apply andb_prop in H as [Hns Hne].
  rewrite prefix_slash_no_slash, split_slash_no_slash by done. simpl.
  by rewrite Hne, Hdot.
Qed.

(** Joining a plain name appends it. *)
Lemma path_div_plain (p : Path) s : plain s = true → p /: s = p ++ [s].
Proof.
  intros H. unfold path_div. rewrite parse_parts_plain by done.
  unfold plain in H. apply andb_prop in H as [H _]. apply andb_prop in H as [Hns _].
  by rewrite prefix_slash_no_slash.
Qed.

Lemma no_slash_app s t : no_slash (s +:+ t) = no_slash s && no_slash t.
Proof.
  induction s as [|c s IH]; [done|].
  rewrite string_app_cons. simpl. by rewrite IH, andb_assoc.
Qed.

Lemma no_slash_pretty_N_go x s : no_slash s = true → no_slash (pretty_N_go x s) = true.
Proof.
  revert s. induction (N.lt_wf_0 x) as [x _ IH]; intros s Hs.
  assert (x = 0 ∨ 0 < x)%N as [->|?] by lia.
  - by rewrite pretty_N_go_0.
  - rewrite pretty_N_go_step by done. apply IH.
    { by apply N.div_lt. }
    simpl. rewrite Hs. unfold pretty_N_char. by repeat case_match.
Qed.

Lemma no_slash_pretty (i : nat) : no_slash (pretty i) = true.
Proof.
  unfold pretty, pretty_nat, pretty, pretty_N.
  case_decide; [done|]. by apply no_slash_pretty_N_go.
Qed.

(** The name of a page file is a plain name. *)
Lemma plain_jpg (i : nat) : plain (pretty i +:+ ".jpg") = true.
Proof.
  unfold plain. rewrite no_slash_app, no_slash_pretty. simpl.
  assert (Hlen : 4 ≤ String.length (pretty i +:+ ".jpg")).
  { rewrite string_app_length. simpl. lia. }
  destruct (String.eqb_spec (pretty i +:+ ".jpg") "") as [E|_].
  { rewrite E in Hlen. simpl in Hlen. lia. }
  destruct (String.eqb_spec (pretty i +:+ ".jpg") ".") as [E|_]; [|done].
  rewrite E in Hlen. simpl in Hlen. lia.
Qed.

Lemma chapter_items_lookup path ch pages i :
  chapter_items path ch pages !! i =
  (λ page_urls, ((path /: number ch) ++ [pretty i +:+ ".jpg"], page_urls))
    <$> pages !! i.
Proof.
  unfold chapter_items. rewrite list_lookup_imap.
  destruct (pages !! i); [|done]. simpl. by rewrite path_div_plain by apply plain_jpg.
Qed.

(** C8 (as amended).  For the pages of a chapter, in their resolved order,
    there is one item per page, no two items share a target, and the item of
    page [i] (counted from 0) has the mirrors of that page and the target
    that pathlib makes of [root / slug / number / '<i>.jpg'].  When the slug
    and the chapter number are plain names, that target is
    [<output-root>/<work-slug>/<chapter-number>/<i>.jpg]. *)
Theorem chapter_items_targets (root : Path) (d : manga_data) (ch : chapter)
    (pages : list (list string)) :
  length (chapter_items (root /: slug d) ch pages) = length pages ∧
  (∀ i page_urls, pages !! i = Some page_urls →
     chapter_items (root /: slug d) ch pages !! i =
     Some ((root /: slug d /: number ch) ++ [pretty i +:+ ".jpg"], page_urls)) ∧
  (plain (slug d) = true → plain (number ch) = true →
   ∀ i page_urls, pages !! i = Some page_urls →
     chapter_items (root /: slug d) ch pages !! i =
     Some (root ++ [slug d; number ch; pretty i +:+ ".jpg"], page_urls)) ∧
  NoDup (chapter_items (root /: slug d) ch pages).*1.
Proof.
  split; [|split; [|split]].
  - unfold chapter_items. apply length_imap.
  - intros i page_urls Hi. by rewrite chapter_items_lookup, Hi.
  - intros Hslug Hnumber i page_urls Hi. rewrite chapter_items_lookup, Hi. simpl.
    rewrite !path_div_plain by done. by rewrite <- !app_assoc.
  - apply NoDup_alt. intros i j p Hi Hj.
    rewrite list_lookup_fmap, chapter_items_lookup in Hi, Hj.
    destruct (pages !! i); [|done]. destruct (pages !! j); [|done].
    simpl in *. injection Hi as <-. injection Hj as Hj.
    apply app_inv_head in Hj. injection Hj as Hj.
    by apply string_app_inj_r, (inj (pretty : nat → string)) in Hj.
Qed.

Lemma chapter_items_targets_witness :
  chapter_items (["out"] /: "jojo") (mkChapter "Last" "24" "95" "u") [["a"]; ["b"; "c"]] !! 1 =
  Some (["out"; "jojo"; "95"; "1.jpg"], ["b"; "c"]).
Proof.
  apply (proj1 (proj2 (proj2 (chapter_items_targets ["out"] data0
                                (mkChapter "Last" "24" "95" "u") [["a"]; ["b"; "c"]])))
           eq_refl eq_refl 1).
  reflexivity.
Defined.

(** C8, as the specification words it, fails: a chapter number that is an
    absolute path makes pathlib drop the output root and the slug, so the
    target of the page is [/etc/0.jpg], outside the output root, and not the
    path that [<output-root>/<work-slug>/<chapter-number>/<i>.jpg] spells. *)
Lemma chapter_items_absolute_number :
  chapter_items (["out"] /: "jojo") (mkChapter "Odd" "1" "/etc" "u") [["a"]] =
    [(["/"; "etc"; "0.jpg"], ["a"])] ∧
  parse_parts "out/jojo//etc/0.jpg" = ["out"; "jojo"; "etc"; "0.jpg"] ∧
  ¬ ["out"] `prefix_of` ["/"; "etc"; "0.jpg"].
Proof.
  split; [reflexivity|]. split; [reflexivity|].
  intros [k Hk]. discriminate.
Qed.

(** ** The file system *)

Lemma mkdir_from_spec cur rest f f' :
  mkdir_from cur rest f = Returned f' →
  (∀ k, 0 < k ≤ length rest → f' !! (cur ++ take k rest) = Some Dir) ∧
  (∀ q, f' !! q = f !! q ∨
        (f !! q = None ∧ f' !! q = Some Dir ∧
         ∃ k, 0 < k ≤ length rest ∧ q = cur ++ take k rest)).
Proof.
  revert cur f. induction rest as [|c rest IH]; intros cur f; simpl.
  { intros [= <-]. split; [intros; lia | by left]. }
  destruct (f !! (cur ++ [c])) as [[content|]|] eqn:Hd; [done| |];
    intros H; destruct (IH _ _ H) as [IH1 IH2]; clear IH.
  - split.
    + intros [|[|k]] Hk; [lia| |].
      * simpl. rewrite take_0.
        destruct (IH2 (cur ++ [c])) as [->|(? & ? & ?)]; congruence.
      * specialize (IH1 (S k)). rewrite <- app_assoc in IH1. apply IH1. lia.
    + intros q. destruct (IH2 q) as [?|(? & ? & k & ? & ->)]; [by left|].
      right. split_and!; [done..|]. exists (S k). split; [lia|].
      by rewrite <- app_assoc.
  - split.
    + intros [|[|k]] Hk; [lia| |].
      * simpl. rewrite take_0.
        destruct (IH2 (cur ++ [c])) as [->|(Hn & ? & ?)].
        -- apply lookup_insert_eq.
        -- by rewrite lookup_insert_eq in Hn.
      * specialize (IH1 (S k)). rewrite <- app_assoc in IH1. apply IH1. lia.
    + intros q. destruct (decide (q = cur ++ [c])) as [->|Hne].
      * right. split; [done|]. split.
        -- destruct (IH2 (cur ++ [c])) as [->|(Hn & ? & ?)]; [|done].
           apply lookup_insert_eq.
        -- exists 1. split; [lia|done].
      * destruct (IH2 q) as [Hq|(Hq & ? & k & ? & ->)];
          rewrite lookup_insert_ne in Hq by done; [by left|].
        right. split_and!; [done..|]. exists (S k). split; [lia|].
        by rewrite <- app_assoc.
Qed.

(** Directories that are already there are accepted: nothing is raised and
    nothing changes. *)
Lemma mkdir_from_present cur rest f :
  (∀ k, 0 < k ≤ length rest → f !! (cur ++ take k rest) = Some Dir) →
  mkdir_from cur rest f = Returned f.
Proof.
  revert cur. induction rest as [|c rest IH]; intros cur H; simpl; [done|].
  pose proof (H 1) as H1. simpl in H1. rewrite take_0 in H1.
  rewrite H1 by lia. apply IH. intros k Hk.
  rewrite <- app_assoc. apply (H (S k)). simpl. lia.
Qed.

Lemma mkdir_from_keeps cur rest f f' q x :
  mkdir_from cur rest f = Returned f' → f !! q = Some x → f' !! q = Some x.
Proof.
  intros H Hq. destruct (mkdir_from_spec _ _ _ _ H) as [_ H2].
  destruct (H2 q) as [->|(? & _)]; congruence.
Qed.

(** [mkdir] succeeds when no regular file stands where a directory is
    needed. *)
Lemma mkdir_from_total cur rest f :
  (∀ k content, 0 < k ≤ length rest →
                f !! (cur ++ take k rest) ≠ Some (File content)) →
  ∃ f', mkdir_from cur rest f = Returned f'.
Proof.
  revert cur f. induction rest as [|c rest IH]; intros cur f Hfree; simpl.
  { by eexists. }
  assert (Hlonger : ∀ k content (g : gmap Path node),
            (∀ q, q ≠ cur ++ [c] → g !! q = f !! q) →
            0 < k ≤ length rest →
            g !! ((cur ++ [c]) ++ take k rest) ≠ Some (File content)).
  { intros k content g Hg Hk. rewrite Hg.
    - rewrite <- app_assoc. apply (Hfree (S k) content). simpl. lia.
    - intros Heq. apply (f_equal length) in Heq.
      rewrite !length_app, length_take in Heq. simpl length in Heq. lia. }
  destruct (f !! (cur ++ [c])) as [[content|]|] eqn:Hd.
  - exfalso. apply (Hfree 1 content); [simpl; lia|].
    simpl. by rewrite take_0.
  - apply IH. intros k content Hk. by apply Hlonger.
  - apply IH. intros k content Hk. apply Hlonger; [|done].
    intros q Hq. by apply lookup_insert_ne.
Qed.

(** The error of [mkdir] is for the directory that was asked for. *)
Lemma mkdir_from_error_at cur rest f e :
  mkdir_from cur rest f = Raised e → e = ExOSError (cur ++ rest).
Proof.
  revert cur f. induction rest as [|c rest IH]; intros cur f; simpl; [done|].
  destruct (f !! (cur ++ [c])) as [[content|]|].
  - by intros [= <-].
  - intros H. apply IH in H. by rewrite <- app_assoc in H.
  - intros H. apply IH in H. by rewrite <- app_assoc in H.
Qed.

Lemma mkdir_from_error cur rest f e :
  mkdir_from cur rest f = Raised e → ∃ d, e = ExOSError d.
Proof. intros H. apply mkdir_from_error_at in H. by eexists. Qed.

Lemma length_parent (p : Path) : length (parent p) = length p - 1.
Proof.
  unfold parent. rewrite removelast_firstn_len, length_take. lia.
Qed.

(** Once the guard has found nothing at [p] and the parents of [p] have
    been made, a file can be written at [p]. *)
Lemma guard_then_write f p f1 :
  exists_at f p = false →
  mkdir_from [] (parent p) f = Returned f1 →
  is_dir f1 (parent p) = true ∧ is_dir f1 p = false.
Proof.
  intros Hex Hmk. destruct (mkdir_from_spec _ _ _ _ Hmk) as [H1 H2]. split.
  - unfold is_dir. destruct (parent p) as [|c l] eqn:Hp; [done|].
    specialize (H1 (length (c :: l))). rewrite firstn_all in H1.
    simpl in H1. rewrite H1; [done|lia].
  - unfold exists_at in Hex. unfold is_dir. destruct p as [|c l]; [done|].
    destruct (f !! (c :: l)) eqn:Hf; [done|].
    destruct (H2 (c :: l)) as [->|(_ & _ & k & Hk & Heq)]; [by rewrite Hf|].
    exfalso. apply (f_equal length) in Heq.
    rewrite length_app, length_take, length_parent in Heq. simpl in Heq. lia.
Qed.

(** ** One item: [download_] *)

Section OneItem.

Variable net : Request → Reply.

Lemma try_mirrors_fail to_path u rest exceptions e w :
  fetch net u = Raised e →
  try_mirrors net to_path (u :: rest) exceptions w =
  try_mirrors net to_path rest (exceptions ++ [(u, e)])
    (mkWorld (fs w) (trace w ++ failed_attempt to_path (u, e))).
Proof.
  intros He. simpl. py_run. rewrite He. py_run. by rewrite <- !app_assoc.
Qed.

Lemma try_mirrors_good to_path u rest exceptions page w :
  fetch net u = Returned page →
  is_dir (fs w) (parent to_path) = true →
  is_dir (fs w) to_path = false →
  try_mirrors net to_path (u :: rest) exceptions w =
  (Returned PyNone,
   mkWorld (<[to_path := File page]> (fs w))
           (trace w ++ good_attempt to_path u page)).
Proof.
  intros Hp Hd Hf. simpl. py_run. rewrite Hp. py_run. rewrite Hd, Hf. simpl.
  by rewrite <- !app_assoc.
Qed.

(** The mirrors of [fails] are tried one after the other and their failures
    are appended, in that order, to the list of exceptions. *)
Lemma try_mirrors_failures to_path (fails : list (string * exn)) rest exceptions w :
  Forall (λ ue, fetch net ue.1 = Raised ue.2) fails →
  try_mirrors net to_path (fails.*1 ++ rest) exceptions w =
  try_mirrors net to_path rest (exceptions ++ fails)
    (mkWorld (fs w) (trace w ++ fails ≫= failed_attempt to_path)).
Proof.
  intros H. revert exceptions w.
  induction H as [|[u e] fails Hu _ IH]; intros exceptions w.
  - simpl. by rewrite !app_nil_r, world_eta.
  - rewrite fmap_cons, <- app_comm_cons, (try_mirrors_fail _ _ _ _ e) by done.
    rewrite IH. simpl. by rewrite <- !app_assoc.
Qed.

Lemma try_mirrors_all_fail to_path (fails : list (string * exn)) exceptions w :
  Forall (λ ue, fetch net ue.1 = Raised ue.2) fails →
  try_mirrors net to_path fails.*1 exceptions w =
  (Raised (ExFailed to_path (exceptions ++ fails)),
   mkWorld (fs w) (trace w ++ fails ≫= failed_attempt to_path)).
Proof.
  intros H. pose proof (try_mirrors_failures to_path fails [] exceptions w H) as E.
  rewrite app_nil_r in E. by rewrite E.
Qed.

Lemma download__absent to_path urls w :
  exists_at (fs w) to_path = false →
  download_ net to_path urls w =
  match mkdir_from [] (parent to_path) (fs w) with
  | Returned f1 =>
      try_mirrors net to_path urls []
        (mkWorld f1 (trace w ++ [EvExists to_path; EvMkdir (parent to_path)]))
  | Raised e =>
      (Raised e,
       mkWorld (fs w) (trace w ++ [EvExists to_path; EvMkdir (parent to_path)]))
  end.
Proof.
  intros Hex. unfold download_. py_run. rewrite Hex. py_run.
  destruct (mkdir_from _ _ _); by rewrite <- !app_assoc.
Qed.

Lemma requested_app tr1 tr2 : requested (tr1 ++ tr2) = requested tr1 ++ requested tr2.
Proof. apply omap_app. Qed.

Lemma requested_failures to_path (fails : list (string * exn)) :
  requested (fails ≫= failed_attempt to_path) = fails.*1.
Proof.
  induction fails as [|[u e] fails IH]; [done|].
  simpl. change (requested ?l) with (omap (λ ev, match ev with
    | EvGet Aiohttp r => Some (req_url r) | _ => None end) l) in *.
  simpl. by f_equal.
Qed.

Lemma written_app tr1 tr2 : written (tr1 ++ tr2) = written tr1 ++ written tr2.
Proof. apply omap_app. Qed.

Lemma written_failures to_path (fails : list (string * exn)) :
  written (fails ≫= failed_attempt to_path) = [].
Proof. induction fails as [|[u e] fails IH]; [done|]. simpl. apply IH. Qed.

(** A write never replaces a directory. *)
Lemma write_file_keeps_dir to_path page w d :
  fs w !! d = Some Dir → fs (write_file to_path page w).2 !! d = Some Dir.
Proof.
  intros Hd. py_run.
  destruct (is_dir (fs w) (parent to_path)); simpl; [|done].
  destruct (is_dir (fs w) to_path) eqn:Hf; simpl; [done|].
  rewrite lookup_insert_ne; [done|]. intros ->.
  unfold is_dir in Hf. rewrite Hd in Hf. by destruct d.
Qed.

(** The loop touches the file system at [to_path] only, keeps every
    directory, and leaves events of the item only. *)
Lemma try_mirrors_effects to_path urls exceptions w :
  (∀ d, fs w !! d = Some Dir →
        fs (try_mirrors net to_path urls exceptions w).2 !! d = Some Dir) ∧
  (∀ q, q ≠ to_path →
        fs (try_mirrors net to_path urls exceptions w).2 !! q = fs w !! q) ∧
  ∃ tl, trace (try_mirrors net to_path urls exceptions w).2 = trace w ++ tl ∧
        Forall (item_event to_path) tl.
Proof.
  revert exceptions w. induction urls as [|u rest IH]; intros exceptions w.
  { simpl. split; [done|]. split; [done|]. exists []. by rewrite app_nil_r. }
  destruct (fetch net u) as [page|e] eqn:Hu.
  - simpl. py_run. rewrite Hu. py_run.
    destruct (is_dir (fs w) (parent to_path) && negb (is_dir (fs w) to_path)) eqn:Hw;
      simpl.
    + split.
      { intros d Hd. rewrite lookup_insert_ne; [done|]. intros ->.
        apply andb_prop in Hw as [_ Hw]. unfold is_dir in Hw.
        rewrite Hd in Hw. by destruct d. }
      split; [intros q Hq; by rewrite lookup_insert_ne|].
      eexists. rewrite <- !app_assoc. split; [done|].
      repeat constructor.
    + destruct (IH (exceptions ++ [(u, ExOSError to_path)])
          (mkWorld (fs w) ((((trace w ++ [EvLog Debug (LDownloading u to_path)]) ++
             [EvGet Aiohttp (image_request u)]) ++ [EvWrite to_path page]) ++
             [EvLog Error (LException (ExOSError to_path))])))
        as (IH1 & IH2 & tl & Htl & HF).
      split; [done|]. split; [done|].
      eexists. rewrite Htl. simpl. rewrite <- !app_assoc. split; [done|].
      repeat (constructor; [done|]). done.
  - rewrite (try_mirrors_fail _ _ _ _ e) by done.
    destruct (IH (exceptions ++ [(u, e)])
        (mkWorld (fs w) (trace w ++ failed_attempt to_path (u, e))))
      as (IH1 & IH2 & tl & Htl & HF).
    split; [done|]. split; [done|].
    eexists. rewrite Htl. simpl. rewrite <- !app_assoc. split; [done|].
    repeat (constructor; [done|]). done.
Qed.

Lemma download__present to_path urls w :
  exists_at (fs w) to_path = true →
  download_ net to_path urls w =
  (Returned PyNone,
   mkWorld (fs w) (trace w ++ [EvExists to_path; EvLog Debug (LSkipping to_path)])).
Proof.
  intros Hex. unfold download_. py_run. rewrite Hex. py_run.
  by rewrite <- !app_assoc.
Qed.

Lemma download__effects to_path urls w :
  ∃ tl, trace (download_ net to_path urls w).2 = trace w ++ tl ∧
        Forall (item_event to_path) tl.
Proof.
  destruct (exists_at (fs w) to_path) eqn:Hex.
  - rewrite download__present by done. eexists. split; [done|].
    repeat constructor.
  - rewrite download__absent by done.
    destruct (mkdir_from [] (parent to_path) (fs w)) as [f1|e].
    + destruct (try_mirrors_effects to_path urls []
          (mkWorld f1 (trace w ++ [EvExists to_path; EvMkdir (parent to_path)])))
        as (_ & _ & tl & Htl & HF).
      eexists. rewrite Htl. simpl. rewrite <- !app_assoc. split; [done|].
      repeat (constructor; [done|]). done.
    + eexists. split; [done|]. repeat constructor.
Qed.

End OneItem.

(** C2 (as amended).  When the target is absent and its parents can be
    made, the mirrors are tried strictly in list order; the ones before the
    first that answers with content each fail once, that one is requested
    last and nothing after it is requested.  Its payload is written to the
    target file, once; [download_] itself returns [None]: neither the
    payload nor the index of the mirror is handed back. *)
Theorem download__first_success net to_path (fails : list (string * exn))
    u page rest w f1 :
  exists_at (fs w) to_path = false →
  mkdir_from [] (parent to_path) (fs w) = Returned f1 →
  Forall (λ ue, fetch net ue.1 = Raised ue.2) fails →
  fetch net u = Returned page →
  (download_ net to_path (fails.*1 ++ u :: rest) w).1 = Returned PyNone ∧
  fs (download_ net to_path (fails.*1 ++ u :: rest) w).2 =
    <[to_path := File page]> f1 ∧
  trace (download_ net to_path (fails.*1 ++ u :: rest) w).2 =
    trace w ++ [EvExists to_path; EvMkdir (parent to_path)]
            ++ (fails ≫= failed_attempt to_path)
            ++ good_attempt to_path u page ∧
  requested (trace (download_ net to_path (fails.*1 ++ u :: rest) w).2) =
    requested (trace w) ++ fails.*1 ++ [u] ∧
  written (trace (download_ net to_path (fails.*1 ++ u :: rest) w).2) =
    written (trace w) ++ [to_path].
Proof.
  intros Hex Hmk Hfails Hu.
  destruct (guard_then_write _ _ _ Hex Hmk) as [Hd Hf].
  rewrite download__absent, Hmk by done.
  rewrite try_mirrors_failures by done.
  rewrite (try_mirrors_good _ _ _ _ _ page) by done. simpl.
  split; [done|]. split; [done|].
  assert (Htr : ((trace w ++ [EvExists to_path; EvMkdir (parent to_path)]) ++
                 (fails ≫= failed_attempt to_path)) ++ good_attempt to_path u page =
                trace w ++ [EvExists to_path; EvMkdir (parent to_path)] ++
                 (fails ≫= failed_attempt to_path) ++ good_attempt to_path u page).
  { by rewrite <- !app_assoc. }
  rewrite Htr. split; [done|]. split.
  - rewrite !requested_app, requested_failures. reflexivity.
  - rewrite !written_app, written_failures. reflexivity.
Qed.

Lemma download__first_success_witness :
  (download_ net0 ["out"; "0.jpg"] ["bad://x"; "empty://e"; "good://y"; "good://z"] w0).1
    = Returned PyNone ∧
  fs (download_ net0 ["out"; "0.jpg"] ["bad://x"; "empty://e"; "good://y"; "good://z"] w0).2
    !! ["out"; "0.jpg"] = Some (File (bs "Y")) ∧
  requested (trace (download_ net0 ["out"; "0.jpg"]
                      ["bad://x"; "empty://e"; "good://y"; "good://z"] w0).2)
    = ["bad://x"; "empty://e"; "good://y"].
Proof.
  pose proof (download__first_success net0 ["out"; "0.jpg"]
    [("bad://x", ExClientResponse 404); ("empty://e", ExEmptyResponse)]
    "good://y" (bs "Y") ["good://z"] w0 (<[["out"] := Dir]> ∅)
    eq_refl eq_refl) as H.
  destruct H as (H1 & H2 & _ & H4 & _).
  - repeat constructor.
  - reflexivity.
  - split; [exact H1|]. split; [|exact H4].
    etrans; [exact (f_equal (λ f, f !! ["out"; "0.jpg"]) H2)|].
    apply lookup_insert_eq.
Defined.

(** C2, as the specification words it, fails: with mirrors [m1; m2; m3] of
    which the first two fail and the third succeeds, the three are requested
    in order, but what [download_] returns is [None], not the payload paired
    with the index 2. *)
Lemma download__returns_no_payload_or_index :
  let r := download_ net0 ["out"; "0.jpg"] ["bad://x"; "empty://e"; "good://y"] w0 in
  requested (trace r.2) = ["bad://x"; "empty://e"; "good://y"] ∧
  r.1 = Returned PyNone ∧
  ¬ ∃ payload index, r.1 = Returned (PyPair (PyBytes payload) (PyInt index)).
Proof.
  split; [reflexivity|]. split; [reflexivity|].
  intros (payload & index & H). vm_compute in H. discriminate.
Qed.

(** C4.  When the target is absent, its parents can be made and every mirror
    of the item fails, [download_] raises the failure that carries the list
    of exceptions: one [(url, error)] pair per mirror, the urls being the
    item's mirror list in its order and each error the one that mirror failed
    with.  Every mirror was requested once, in order, and nothing was
    written. *)
Theorem download__all_mirrors_fail net to_path urls w f1 :
  exists_at (fs w) to_path = false →
  mkdir_from [] (parent to_path) (fs w) = Returned f1 →
  Forall (λ u, ∃ e, fetch net u = Raised e) urls →
  ∃ exceptions,
    (download_ net to_path urls w).1 = Raised (ExFailed to_path exceptions) ∧
    exceptions.*1 = urls ∧
    Forall (λ ue, fetch net ue.1 = Raised ue.2) exceptions ∧
    fs (download_ net to_path urls w).2 = f1 ∧
    requested (trace (download_ net to_path urls w).2) = requested (trace w) ++ urls ∧
    written (trace (download_ net to_path urls w).2) = written (trace w).
Proof.
  intros Hex Hmk Hall.
  assert (∃ exceptions : list (string * exn), exceptions.*1 = urls ∧
            Forall (λ ue, fetch net ue.1 = Raised ue.2) exceptions)
    as (exceptions & <- & Hfails).
  { induction Hall as [|u urls [e He] _ (l & <- & Hl)]; [by exists []|].
    exists ((u, e) :: l). split; [done|]. by constructor. }
  exists exceptions.
  rewrite download__absent, Hmk by done.
  rewrite try_mirrors_all_fail by done. simpl.
  split; [done|]. split; [done|]. split; [done|]. split; [done|]. split.
  - rewrite !requested_app, requested_failures. simpl. by rewrite app_nil_r.
  - rewrite !written_app, written_failures. simpl. by rewrite !app_nil_r.
Qed.

Lemma download__all_mirrors_fail_witness :
  (download_ net0 ["out"; "0.jpg"] ["bad://x"; "empty://e"; "down://d"] w0).1 =
  Raised (ExFailed ["out"; "0.jpg"]
            [("bad://x", ExClientResponse 404); ("empty://e", ExEmptyResponse);
             ("down://d", ExClientConnection)]).
Proof.
  destruct (download__all_mirrors_fail net0 ["out"; "0.jpg"]
              ["bad://x"; "empty://e"; "down://d"] w0 (<[["out"] := Dir]> ∅)
              eq_refl eq_refl) as (exceptions & H & _).
  - repeat constructor; eexists; reflexivity.
  - reflexivity.
Defined.

(** ** The skip guard *)

Lemma exists_at_file f p content : f !! p = Some (File content) → exists_at f p = true.
Proof. intros H. unfold exists_at. destruct p; [done|]. by rewrite H. Qed.

Lemma prefix_is_take (d l : Path) : d `prefix_of` l → d = take (length d) l.
Proof. intros [k ->]. by rewrite take_app_length. Qed.

(** C5.  A regular file at the target makes [download_] return at once: the
    only effects are the existence check and the log record of the skip, so
    no request is sent and nothing is written, whatever the mirrors would
    answer.  When nothing is at the target, the parents of the target are
    made before the first mirror is tried: the loop over the mirrors starts in
    a file system in which every ancestor of the target is a directory, or, if
    one of them cannot be made, the error is raised and no mirror is tried.
    The ancestors can be made, the missing ones being created, whenever no
    regular file stands in the place of one: what was on disk is kept, and
    ancestors that are already directories are accepted as they are. *)
Theorem download__skips_existing_target net to_path urls w :
  (∀ content, fs w !! to_path = Some (File content) →
     download_ net to_path urls w =
       (Returned PyNone,
        mkWorld (fs w)
          (trace w ++ [EvExists to_path; EvLog Debug (LSkipping to_path)])) ∧
     requested (trace (download_ net to_path urls w).2) = requested (trace w) ∧
     written (trace (download_ net to_path urls w).2) = written (trace w)) ∧
  (exists_at (fs w) to_path = false →
     match mkdir_from [] (parent to_path) (fs w) with
     | Returned f1 =>
         (∀ d, d ≠ [] → d `prefix_of` parent to_path → f1 !! d = Some Dir) ∧
         download_ net to_path urls w =
           try_mirrors net to_path urls []
             (mkWorld f1 (trace w ++ [EvExists to_path; EvMkdir (parent to_path)]))
     | Raised e =>
         download_ net to_path urls w =
           (Raised e,
            mkWorld (fs w) (trace w ++ [EvExists to_path; EvMkdir (parent to_path)]))
     end) ∧
  (exists_at (fs w) to_path = false →
   (∀ d content, d ≠ [] → d `prefix_of` parent to_path →
                 fs w !! d ≠ Some (File content)) →
   ∃ f1, mkdir_from [] (parent to_path) (fs w) = Returned f1 ∧
         (∀ d, d ≠ [] → d `prefix_of` parent to_path → f1 !! d = Some Dir) ∧
         (∀ q x, fs w !! q = Some x → f1 !! q = Some x) ∧
         download_ net to_path urls w =
           try_mirrors net to_path urls []
             (mkWorld f1
                (trace w ++ [EvExists to_path; EvMkdir (parent to_path)]))) ∧
  ((∀ d, d ≠ [] → d `prefix_of` parent to_path → fs w !! d = Some Dir) →
     mkdir_from [] (parent to_path) (fs w) = Returned (fs w)).
Proof.
  assert (Hdirs : ∀ f1, mkdir_from [] (parent to_path) (fs w) = Returned f1 →
            ∀ d, d ≠ [] → d `prefix_of` parent to_path → f1 !! d = Some Dir).
  { intros f1 Hmk d Hd Hpre.
    destruct (mkdir_from_spec _ _ _ _ Hmk) as [H1 _].
    rewrite (prefix_is_take _ _ Hpre). apply (H1 (length d)).
    split; [destruct d; [done|simpl; lia]|]. by apply prefix_length. }
  split; [|split; [|split]].
  - intros content Hfile.
    rewrite download__present by (by eapply exists_at_file). simpl.
    split; [done|]. split.
    + rewrite requested_app. simpl. by rewrite app_nil_r.
    + rewrite written_app. simpl. by rewrite app_nil_r.
  - intros Hex. rewrite download__absent by done.
    destruct (mkdir_from [] (parent to_path) (fs w)) as [f1|e] eqn:Hmk; [|done].
    split; [|done]. by apply Hdirs.
  - intros Hex Hfree.
    destruct (mkdir_from_total [] (parent to_path) (fs w)) as [f1 Hmk].
    { intros k content Hk. simpl. apply Hfree; [|apply prefix_take].
      intros Hnil. apply (f_equal length) in Hnil.
      rewrite length_take in Hnil. simpl in Hnil. lia. }
    exists f1. split; [done|]. split; [by apply Hdirs|]. split.
    + intros q x Hq. by eapply mkdir_from_keeps.
    + rewrite download__absent by done. by rewrite Hmk.
  - intros Hall. apply mkdir_from_present. intros k Hk. apply Hall.
    + intros Hnil. apply (f_equal length) in Hnil.
      simpl in Hnil. rewrite length_take in Hnil. lia.
    + apply prefix_take.
Qed.

Lemma download__skips_existing_target_witness :
  download_ net0 ["out"; "0.jpg"] ["bad://x"; "down://d"] w_have =
  (Returned PyNone,
   mkWorld (fs w_have)
     [EvExists ["out"; "0.jpg"]; EvLog Debug (LSkipping ["out"; "0.jpg"])]) ∧
  ∃ f1, mkdir_from [] ["out"; "jojo"; "1"] (fs w0) = Returned f1 ∧
        f1 !! ["out"] = Some Dir ∧
        f1 !! ["out"; "jojo"] = Some Dir ∧
        f1 !! ["out"; "jojo"; "1"] = Some Dir ∧
        download_ net0 ["out"; "jojo"; "1"; "0.jpg"] ["good://y"] w0 =
          try_mirrors net0 ["out"; "jojo"; "1"; "0.jpg"] ["good://y"] []
            (mkWorld f1 [EvExists ["out"; "jojo"; "1"; "0.jpg"];
                         EvMkdir ["out"; "jojo"; "1"]]).
Proof.
  split.
  - apply (proj1 (proj1 (download__skips_existing_target net0 ["out"; "0.jpg"]
                           ["bad://x"; "down://d"] w_have) (bs "old") eq_refl)).
  - destruct (proj1 (proj2 (proj2 (download__skips_existing_target net0
                ["out"; "jojo"; "1"; "0.jpg"] ["good://y"] w0))) eq_refl)
      as (f1 & Hmk & Hdirs & _ & Hrun).
    { intros d content _ _. simpl. rewrite lookup_empty. discriminate. }
    exists f1. split; [exact Hmk|]. split; [|split; [|split; [|exact Hrun]]].
    + apply Hdirs; [discriminate|]. by exists ["jojo"; "1"].
    + apply Hdirs; [discriminate|]. by exists ["1"].
    + apply Hdirs; [discriminate|]. by exists [].
Defined.

(** ** The batch: [_download] *)

Section Batch.

Variable net : Request → Reply.

Lemma next_mirror_item it to_path urls exceptions w :
  to_path = it.1 → exceptions.*1 ++ urls = it.2 →
  item_task it (next_mirror to_path urls exceptions w).1.
Proof.
  intros -> H. destruct urls as [|u rest]; simpl.
  - left. exists exceptions. by rewrite app_nil_r in H.
  - done.
Qed.

(** A slice keeps a task within its item. *)
Lemma task_step_item it t w : item_task it t → item_task it (task_step net t w).1.
Proof.
  destruct t as [to_path urls|to_path u rest exceptions|v|e]; simpl; [| |done..].
  - intros [-> ->]. destruct (exists_at _ _); [done|].
    py_run. destruct (mkdir_from _ _ _) as [f1|e] eqn:Hmk; simpl.
    + by apply next_mirror_item.
    + right. by apply mkdir_from_error_at in Hmk.
  - intros [-> H]. py_run.
    destruct (fetch net u) as [page|e]; simpl.
    + destruct (_ && _); simpl; [done|].
      apply next_mirror_item; [done|].
      by rewrite fmap_app, <- app_assoc.
    + apply next_mirror_item; [done|].
      by rewrite fmap_app, <- app_assoc.
Qed.

Lemma task_step_remaining t w :
  finished t = false → remaining (task_step net t w).1 < remaining t.
Proof.
  destruct t as [to_path urls|to_path u rest exceptions|v|e]; simpl; [| |done..];
    intros _.
  - destruct (exists_at _ _); simpl; [lia|].
    py_run. destruct (mkdir_from _ _ _); simpl; [|lia].
    destruct urls; simpl; lia.
  - py_run. destruct (fetch net u) as [page|e]; simpl.
    + destruct (_ && _); simpl; [lia|]. destruct rest; simpl; lia.
    + destruct rest; simpl; lia.
Qed.

Lemma task_step_finished t w : finished t = true → task_step net t w = (t, w).
Proof. by destruct t. Qed.

(** *** The slices of a batch *)

(** What [gather] holds for its caller after a slice that turned a task
    into [t']. *)
Definition note_failure (raised : option exn) (t' : task) : option exn :=
  match raised, t' with
  | None, TFailed e => Some e
  | _, _ => raised
  end.

Lemma run_slices_cons i schedule raised ts w :
  run_slices net (i :: schedule) raised ts w =
  match ts !! i with
  | Some t =>
      if finished t then run_slices net schedule raised ts w
      else run_slices net schedule
             (note_failure raised (task_step net t w).1)
             (<[i := (task_step net t w).1]> ts) (task_step net t w).2
  | None => run_slices net schedule raised ts w
  end.
Proof.
  simpl. destruct (ts !! i) as [t|]; [|done].
  destruct (finished t); [done|]. by destruct (task_step net t w).
Qed.


(** A property of what [gather] holds, of the tasks and of the world that
    every slice keeps holds when the slices of a schedule have run. *)
Lemma run_slices_invariant (I : option exn → list task → World → Prop) :
  (∀ raised ts w i t, I raised ts w → ts !! i = Some t → finished t = false →
     I (note_failure raised (task_step net t w).1)
       (<[i := (task_step net t w).1]> ts) (task_step net t w).2) →
  ∀ schedule raised ts w,
    I raised ts w →
    I (run_slices net schedule raised ts w).1.1
      (run_slices net schedule raised ts w).1.2
      (run_slices net schedule raised ts w).2.
Proof.
  intros Hstep schedule. induction schedule as [|i schedule IH];
    intros raised ts w HI; [done|].
  rewrite run_slices_cons.
  destruct (ts !! i) as [t|] eqn:Hi; [|by apply IH].
  destruct (finished t) eqn:Hfin; [by apply IH|].
  apply IH. by apply Hstep.
Qed.

Lemma gather_state schedule ts w :
  (gather net schedule ts w).1.2 = (run_slices net schedule None ts w).1.2 ∧
  (gather net schedule ts w).2 = (run_slices net schedule None ts w).2.
Proof. unfold gather. by destruct (run_slices _ _ _ _ _) as [[raised ts'] w']. Qed.

Lemma gather_answer schedule ts w :
  (gather net schedule ts w).1.1 =
  match (run_slices net schedule None ts w).1.1 with
  | Some e => Some (Raised e)
  | None =>
      if forallb done (run_slices net schedule None ts w).1.2
      then Some (Returned PyNone) else None
  end.
Proof. unfold gather. by destruct (run_slices _ _ _ _ _) as [[raised ts'] w']. Qed.

(** The same for a property of the tasks and the world alone. *)
Lemma gather_invariant (I : list task → World → Prop) :
  (∀ ts w i t, I ts w → ts !! i = Some t → finished t = false →
     I (<[i := (task_step net t w).1]> ts) (task_step net t w).2) →
  ∀ schedule ts w,
    I ts w → I (gather net schedule ts w).1.2 (gather net schedule ts w).2.
Proof.
  intros Hstep schedule ts w HI.
  destruct (gather_state schedule ts w) as [-> ->].
  apply (run_slices_invariant (λ _, I)); [|done].
  intros raised ts0 w0 i t. apply Hstep.
Qed.

(** What [gather] holds is the exception of a task that has raised, and it
    holds none only while no task has raised. *)
Definition raised_ok (raised : option exn) (ts : list task) : Prop :=
  match raised with
  | Some e => ∃ i, ts !! i = Some (TFailed e)
  | None => Forall (λ t, failed t = false) ts
  end.

Lemma run_slices_raised_ok items schedule raised ts w :
  Forall2 item_task items ts → raised_ok raised ts →
  Forall2 item_task items (run_slices net schedule raised ts w).1.2 ∧
  raised_ok (run_slices net schedule raised ts w).1.1
            (run_slices net schedule raised ts w).1.2.
Proof.
  intros Hit Hok.
  apply (run_slices_invariant
           (λ raised ts _, Forall2 item_task items ts ∧ raised_ok raised ts));
    [|done].
  clear. intros raised ts w i t [Hit Hok] Hi Hfin.
  destruct (Forall2_lookup_r _ _ _ _ _ Hit Hi) as (it & Hiti & Ht).
  pose proof (task_step_item it t w Ht) as Ht'.
  destruct (task_step net t w) as [t' w']. simpl in *. split.
  { rewrite <- (list_insert_id items i it) by done. by apply Forall2_insert. }
  assert (Hlt : i < length ts) by (by eapply lookup_lt_Some).
  destruct raised as [e|]; simpl in *.
  - destruct Hok as [k Hk]. exists k. rewrite list_lookup_insert_ne; [done|].
    intros ->. rewrite Hi in Hk. injection Hk as ->. done.
  - destruct t' as [| | |e]; simpl; try (by apply Forall_insert).
    exists i. by apply list_lookup_insert_eq.
Qed.


(** What the answer of [gather] says about the tasks. *)
Lemma gather_spec items schedule ts w :
  Forall2 item_task items ts →
  Forall (λ t, failed t = false) ts →
  Forall2 item_task items (gather net schedule ts w).1.2 ∧
  (∀ v, (gather net schedule ts w).1.1 = Some (Returned v) →
        v = PyNone ∧
        Forall (λ t, t = TDone PyNone) (gather net schedule ts w).1.2) ∧
  (∀ e, (gather net schedule ts w).1.1 = Some (Raised e) →
        ∃ i, (gather net schedule ts w).1.2 !! i = Some (TFailed e)) ∧
  ((∃ i e, (gather net schedule ts w).1.2 !! i = Some (TFailed e)) →
   ∃ e, (gather net schedule ts w).1.1 = Some (Raised e)).
Proof.
  intros Hit Hnf.
  destruct (run_slices_raised_ok items schedule None ts w Hit Hnf) as [Hit' Hok].
  rewrite gather_answer. destruct (gather_state schedule ts w) as [-> _].
  destruct (run_slices net schedule None ts w) as [[raised ts'] w']. simpl in *.
  split; [done|]. destruct raised as [e|]; simpl in Hok.
  - split; [done|]. split; [by intros e' [= <-]|]. intros _. by exists e.
  - assert (Hnone : ¬ ∃ i e, ts' !! i = Some (TFailed e)).
    { intros (i & e & Hi). by pose proof (Forall_lookup_1 _ _ _ _ Hok Hi). }
    destruct (forallb done ts') eqn:Hdone.
    + split; [|split; [done|by intros H; destruct (Hnone H)]].
      intros v [= <-]. split; [done|].
      apply Is_true_true_2, forallb_True in Hdone.
      apply Forall_lookup. intros j t Hj.
      pose proof (Forall_lookup_1 _ _ _ _ Hdone Hj) as Hd.
      destruct (Forall2_lookup_r _ _ _ _ _ Hit' Hj) as (it & _ & Ht).
      destruct t; try done. simpl in Ht. by subst.
    + split; [done|]. split; [done|]. by intros H; destruct (Hnone H).
Qed.




Lemma next_mirror_effects to_path urls exceptions w :
  ∃ tl, trace (next_mirror to_path urls exceptions w).2 = trace w ++ tl ∧
        Forall session_event tl.
Proof.
  destruct urls as [|u rest]; simpl.
  - exists []. by rewrite app_nil_r.
  - eexists. rewrite <- !app_assoc. split; [done|]. repeat constructor.
Qed.

(** The requests of a slice carry the referer header. *)
Lemma task_step_effects t w :
  ∃ tl, trace (task_step net t w).2 = trace w ++ tl ∧ Forall session_event tl.
Proof.
  destruct t as [to_path urls|to_path u rest exceptions|v|e]; simpl.
  - destruct (exists_at _ _); simpl.
    { eexists. rewrite <- !app_assoc. split; [done|]. repeat constructor. }
    py_run. destruct (mkdir_from _ _ _) as [f1|e]; simpl.
    + destruct (next_mirror_effects to_path urls []
          (mkWorld f1 ((trace w ++ [EvExists to_path]) ++ [EvMkdir (parent to_path)])))
        as (tl & -> & HF).
      eexists. simpl. rewrite <- !app_assoc. split; [done|].
      repeat (constructor; [done|]). done.
    + eexists. rewrite <- !app_assoc. split; [done|]. repeat constructor.
  - py_run. destruct (fetch net u) as [page|e]; simpl.
    + destruct (_ && _); simpl.
      * eexists. rewrite <- !app_assoc. split; [done|]. repeat constructor.
      * match goal with |- context [next_mirror ?p ?l ?x ?w1] =>
          destruct (next_mirror_effects p l x w1) as (tl & -> & HF) end.
        eexists. simpl. rewrite <- !app_assoc. split; [done|].
        repeat (constructor; [done|]). done.
    + match goal with |- context [next_mirror ?p ?l ?x ?w1] =>
        destruct (next_mirror_effects p l x w1) as (tl & -> & HF) end.
      eexists. simpl. rewrite <- !app_assoc. split; [done|].
      repeat (constructor; [done|]). done.
  - exists []. by rewrite app_nil_r.
  - exists []. by rewrite app_nil_r.
Qed.

Lemma gather_effects schedule ts w :
  ∃ tl, trace (gather net schedule ts w).2 = trace w ++ tl ∧
        Forall session_event tl.
Proof.
  apply (gather_invariant
           (λ _ w', ∃ tl, trace w' = trace w ++ tl ∧ Forall session_event tl));
    [|exists []; by rewrite app_nil_r].
  intros ts0 w0 i t (tl & Htl & HF) _ _.
  destruct (task_step_effects t w0) as (tl' & -> & HF').
  exists (tl ++ tl'). rewrite Htl, <- app_assoc. split; [done|].
  by apply Forall_app.
Qed.

(** A task run alone goes through what [download_] does in one go. *)
Lemma run_task_finished fuel t w : finished t = true → run_task net fuel t w = (t, w).
Proof.
  intros H. induction fuel as [|fuel IH]; [done|].
  simpl. by rewrite task_step_finished.
Qed.

Lemma run_task_try_mirrors to_path urls exceptions w :
  run_task net (length urls) (next_mirror to_path urls exceptions w).1
                             (next_mirror to_path urls exceptions w).2 =
  (task_of_outcome (try_mirrors net to_path urls exceptions w).1,
   (try_mirrors net to_path urls exceptions w).2).
Proof.
  revert exceptions w. induction urls as [|u rest IH]; intros exceptions w; [done|].
  simpl. py_run. destruct (fetch net u) as [page|e]; simpl.
  - destruct (_ && _); simpl.
    + by rewrite run_task_finished.
    + rewrite <- IH. by destruct (next_mirror _ _ _ _).
  - rewrite <- IH. by destruct (next_mirror _ _ _ _).
Qed.

Lemma run_task_download_ to_path urls w :
  run_task net (S (length urls)) (TReady to_path urls) w =
  (task_of_outcome (download_ net to_path urls w).1, (download_ net to_path urls w).2).
Proof.
  simpl. unfold download_. py_run.
  destruct (exists_at (fs w) to_path); simpl.
  { by rewrite run_task_finished. }
  destruct (mkdir_from _ _ _) as [f1|e]; simpl.
  - rewrite <- run_task_try_mirrors. by destruct (next_mirror _ _ _ _).
  - by rewrite run_task_finished.
Qed.

Lemma create_tasks_item items : Forall2 item_task items (create_tasks items).
Proof.
  unfold create_tasks. apply Forall2_fmap_r, Forall_Forall2_diag, Forall_forall.
  by intros [to_path urls] _.
Qed.

Lemma create_tasks_fresh items : Forall (λ t, failed t = false) (create_tasks items).
Proof. unfold create_tasks. apply Forall_fmap, Forall_forall. by intros. Qed.


End Batch.




(** ** Request headers *)

Lemma item_event_session to_path ev : item_event to_path ev → session_event ev.
Proof. destruct ev as [c r| | | |]; simpl; try done. by intros [-> ->]. Qed.

(** C3 (as amended).  The referer header ['https://mangalib.me/'] is sent
    with every image fetch: the one request of [download__], hence every
    request an item or a whole batch makes, goes through the session with that
    header.  The catalog fetch and the chapter-page fetch are plain
    [requests.get(url)] calls: one request each, with no header passed, so
    without a referer. *)
Theorem image_fetches_carry_referer net find_data find_pg find_info :
  (∀ u w, (download__ net u w).2 = say (EvGet Aiohttp (image_request u)) w ∧
          referer (image_request u) = Some "https://mangalib.me/") ∧
  (∀ to_path urls w,
     ∃ tl, trace (download_ net to_path urls w).2 = trace w ++ tl ∧
           Forall session_event tl) ∧
  (∀ schedule items w,
     ∃ tl, trace (_download net schedule items w).2 = trace w ++ tl ∧
           Forall session_event tl) ∧
  (∀ manga_url w,
     trace (_get_manga_data net find_data manga_url w).2 =
       trace w ++ [EvGet Requests (mkRequest manga_url [])]) ∧
  (∀ chapter_url w,
     trace (get_chapter_pages net find_pg find_info chapter_url w).2 =
       trace w ++ [EvLog Debug (LGettingPages chapter_url);
                   EvGet Requests (mkRequest chapter_url [])]) ∧
  (∀ u, referer (mkRequest u []) = None).
Proof.
  split_and!.
  - done.
  - intros to_path urls w.
    destruct (download__effects net to_path urls w) as (tl & Htl & HF).
    exists tl. split; [done|].
    eapply Forall_impl; [exact HF|]. apply item_event_session.
  - intros schedule items w. apply gather_effects.
  - intros manga_url w. unfold _get_manga_data. py_run.
    destruct (net _) as [|status body]; simpl; [done|].
    by destruct (find_data _).
  - intros chapter_url w. unfold get_chapter_pages. py_run.
    destruct (net _) as [|status body]; simpl; [by rewrite <- app_assoc|].
    repeat case_match; simpl; by rewrite <- app_assoc.
  - done.
Qed.

(** C3, as the specification words it, fails: the catalog fetch and the
    chapter-page fetch send a request that has no referer header. *)
Lemma page_fetches_lack_referer :
  (∃ r, trace (_get_manga_data net0 no_data "https://mangalib.me/jojo" w0).2 =
          [EvGet Requests r] ∧
        referer r = None) ∧
  (∃ r, trace (get_chapter_pages net0 no_pg no_info
                 "https://mangalib.me/jojo/v1/c1" w0).2 =
          [EvLog Debug (LGettingPages "https://mangalib.me/jojo/v1/c1");
           EvGet Requests r] ∧
        referer r = None).
Proof. split; eexists; split; reflexivity. Qed.

(** ** A whole chapter, end to end *)

(** One chapter of two pages: the first page has a dead mirror before a good
    one, the second has one good mirror.  Both files are written, the first
    from its second mirror, and the batch returns. *)
Example two_pages_end_to_end :
  let items := chapter_items (["out"] /: "jojo") (mkChapter "First" "1" "1" "u")
                 [["bad://x"; "good://y"]; ["good://z"]] in
  let r := _download net0 [0; 1; 0; 1; 0] items w0 in
  r.1.1 = Some (Returned PyNone) ∧
  fs r.2 !! ["out"; "jojo"; "1"; "0.jpg"] = Some (File (bs "Y")) ∧
  fs r.2 !! ["out"; "jojo"; "1"; "1.jpg"] = Some (File (bs "Z")) ∧
  requested (trace r.2) = ["bad://x"; "good://z"; "good://y"] ∧
  written (trace r.2) = [["out"; "jojo"; "1"; "1.jpg"]; ["out"; "jojo"; "1"; "0.jpg"]].
Proof. repeat split; reflexivity. Qed.

(** * Further properties of the code *)

(** ** The constructor and the page resolvers *)

Lemma get_chapter_pages_world net find_pg find_info chapter_url w :
  (get_chapter_pages net find_pg find_info chapter_url w).2 =
  mkWorld (fs w) (trace w ++ [EvLog Debug (LGettingPages chapter_url);
                              EvGet Requests (mkRequest chapter_url [])]).
Proof.
  unfold get_chapter_pages. py_run.
  destruct (net _) as [|status body]; simpl; [by rewrite <- app_assoc|].
  repeat case_match; simpl; by rewrite <- app_assoc.
Qed.

(** X2.  When the chapter page resolves, there is one page per entry of
    [window.__pg], in that order, and every page has one mirror URL per
    server of [window.__info], in the servers' order: the URL of page [i] on
    server [k] is the server's address, a slash, the image base and the page's
    relative path.  A chapter whose info lists no server thus resolves to
    pages without any mirror. *)
Theorem get_chapter_pages_shape net find_pg find_info chapter_url w pages w' :
  get_chapter_pages net find_pg find_info chapter_url w = (Returned pages, w') →
  ∃ status body us info,
    net (mkRequest chapter_url []) = Resp status body ∧
    find_pg (String.string_of_list_byte body) = Some us ∧
    find_info (String.string_of_list_byte body) = Some info ∧
    length pages = length us ∧
    (∀ i page, pages !! i = Some page → length page = length (servers info)) ∧
    (∀ i k u s, us !! i = Some u → servers info !! k = Some s →
       ∃ page, pages !! i = Some page ∧
               page !! k = Some (s +:+ "/" +:+ img_url info +:+ u)).
Proof.
  unfold get_chapter_pages. py_run.
  destruct (net _) as [|status body]; simpl; [done|].
  destruct (find_pg _) as [us|] eqn:Hpg; [|done].
  destruct (find_info _) as [info|] eqn:Hinfo; [|done].
  intros [= <- _]. exists status, body, us, info.
  split; [done|]. split; [done|]. split; [done|]. split; [|split].
  - by rewrite length_fmap.
  - intros i page Hi. rewrite list_lookup_fmap in Hi.
    destruct (us !! i); [|done]. injection Hi as <-. by rewrite length_fmap.
  - intros i k u s Hu Hs. eexists. rewrite list_lookup_fmap, Hu. simpl.
    split; [done|]. by rewrite list_lookup_fmap, Hs.
Qed.

Lemma get_chapter_pages_shape_witness :
  ∃ status body us info,
    net_site (mkRequest "https://mangalib.me/jojo/v1/c1" []) = Resp status body ∧
    find_pg0 (String.string_of_list_byte body) = Some us ∧
    find_info0 (String.string_of_list_byte body) = Some info ∧
    length [["bad://x/img/jojo/0.png"; "cdn://main/img/jojo/0.png"];
            ["bad://x/img/jojo/1.png"; "cdn://main/img/jojo/1.png"]] = length us ∧
    (∀ i page,
       [["bad://x/img/jojo/0.png"; "cdn://main/img/jojo/0.png"];
        ["bad://x/img/jojo/1.png"; "cdn://main/img/jojo/1.png"]] !! i = Some page →
       length page = length (servers info)) ∧
    (∀ i k u s, us !! i = Some u → servers info !! k = Some s →
       ∃ page,
         [["bad://x/img/jojo/0.png"; "cdn://main/img/jojo/0.png"];
          ["bad://x/img/jojo/1.png"; "cdn://main/img/jojo/1.png"]] !! i = Some page ∧
         page !! k = Some (s +:+ "/" +:+ img_url info +:+ u)).
Proof.
  exact (get_chapter_pages_shape net_site find_pg0 find_info0
           "https://mangalib.me/jojo/v1/c1" w0
           [["bad://x/img/jojo/0.png"; "cdn://main/img/jojo/0.png"];
            ["bad://x/img/jojo/1.png"; "cdn://main/img/jojo/1.png"]]
           (get_chapter_pages net_site find_pg0 find_info0
              "https://mangalib.me/jojo/v1/c1" w0).2 eq_refl).
Defined.

(** ** One item, all cases *)

Lemma mkdir_from_blocked cur rest f k content :
  0 < k ≤ length rest →
  f !! (cur ++ take k rest) = Some (File content) →
  mkdir_from cur rest f = Raised (ExOSError (cur ++ rest)).
Proof.
  revert cur f k. induction rest as [|c0 rest IH]; intros cur f k Hk Hfile.
  { simpl in Hk. lia. }
  simpl. destruct (f !! (cur ++ [c0])) as [[c1|]|] eqn:Hd.
  - done.
  - destruct k as [|[|k]]; [lia| |].
    { simpl in Hfile. rewrite take_0 in Hfile. congruence. }
    simpl in Hfile, Hk.
    rewrite (IH (cur ++ [c0]) f (S k)); [by rewrite <- app_assoc|lia|].
    by rewrite <- app_assoc.
  - destruct k as [|[|k]]; [lia| |].
    { simpl in Hfile. rewrite take_0 in Hfile. congruence. }
    simpl in Hfile, Hk.
    rewrite (IH (cur ++ [c0]) (<[cur ++ [c0] := Dir]> f) (S k));
      [by rewrite <- app_assoc|lia|].
    rewrite lookup_insert_ne; [by rewrite <- app_assoc|].
    intros Heq. apply (f_equal length) in Heq.
    rewrite !length_app, length_take in Heq. simpl length in Heq. lia.
Qed.

(** X4.  When nothing is at the target but a regular file stands where one
    of its parent directories should be, [download_] raises the [OSError] of
    [mkdir], which is about the directory [mkdir] was asked to make, the
    parent of the target: not the failure of the mirror loop.  No mirror is
    requested, and the file system is left as it was. *)
Theorem download__blocked_by_file net to_path urls w d content :
  exists_at (fs w) to_path = false →
  d ≠ [] →
  d `prefix_of` parent to_path →
  fs w !! d = Some (File content) →
  download_ net to_path urls w =
    (Raised (ExOSError (parent to_path)),
     mkWorld (fs w) (trace w ++ [EvExists to_path; EvMkdir (parent to_path)])).
Proof.
  intros Hex Hd Hpre Hfile.
  pose proof (prefix_is_take _ _ Hpre) as Htake.
  rewrite download__absent by done.
  rewrite (mkdir_from_blocked [] (parent to_path) (fs w) (length d) content);
    [done| |].
  - split; [destruct d; [done|simpl; lia]|]. by apply prefix_length.
  - simpl. by rewrite <- Htake.
Qed.

Lemma download__blocked_by_file_witness :
  download_ net0 ["out"; "jojo"; "1"; "0.jpg"] ["good://y"] w_blocked =
    (Raised (ExOSError ["out"; "jojo"; "1"]),
     mkWorld (fs w_blocked)
       [EvExists ["out"; "jojo"; "1"; "0.jpg"]; EvMkdir ["out"; "jojo"; "1"]]).
Proof.
  apply (download__blocked_by_file net0 ["out"; "jojo"; "1"; "0.jpg"] ["good://y"]
           w_blocked ["out"] (bs "not a directory") eq_refl).
  - discriminate.
  - by exists ["jojo"; "1"].
  - reflexivity.
Defined.

Lemma mirrors_split net (urls : list string) :
  (∃ exceptions : list (string * exn),
     exceptions.*1 = urls ∧
     Forall (λ ue, fetch net ue.1 = Raised ue.2) exceptions) ∨
  (∃ (fails : list (string * exn)) u page rest,
     urls = fails.*1 ++ u :: rest ∧
     Forall (λ ue, fetch net ue.1 = Raised ue.2) fails ∧
     fetch net u = Returned page).
Proof.
  induction urls as [|u urls IH]; [left; by exists []|].
  destruct (fetch net u) as [page|e] eqn:Hu.
  { right. by exists [], u, page, urls. }
  destruct IH as [(exceptions & <- & HF)|(fails & u' & page & rest & -> & HF & Hu')].
  - left. exists ((u, e) :: exceptions). split; [done|]. by constructor.
  - right. exists ((u, e) :: fails), u', page, rest.
    split; [done|]. split; [by constructor|done].
Qed.

(** The three ways [download_] can end when nothing is at the target. *)
Lemma download__cases net to_path urls w :
  exists_at (fs w) to_path = false →
  (∃ d, download_ net to_path urls w =
          (Raised (ExOSError d),
           mkWorld (fs w) (trace w ++ [EvExists to_path; EvMkdir (parent to_path)]))) ∨
  (∃ f1 (exceptions : list (string * exn)),
     exceptions.*1 = urls ∧
     Forall (λ ue, fetch net ue.1 = Raised ue.2) exceptions ∧
     f1 !! to_path = None ∧
     download_ net to_path urls w =
       (Raised (ExFailed to_path exceptions),
        mkWorld f1 ((trace w ++ [EvExists to_path; EvMkdir (parent to_path)]) ++
                    exceptions ≫= failed_attempt to_path))) ∨
  (∃ f1 (fails : list (string * exn)) u page rest,
     urls = fails.*1 ++ u :: rest ∧
     Forall (λ ue, fetch net ue.1 = Raised ue.2) fails ∧
     fetch net u = Returned page ∧
     download_ net to_path urls w =
       (Returned PyNone,
        mkWorld (<[to_path := File page]> f1)
          (((trace w ++ [EvExists to_path; EvMkdir (parent to_path)]) ++
            fails ≫= failed_attempt to_path) ++ good_attempt to_path u page))).
Proof.
  intros Hex. rewrite download__absent by done.
  destruct (mkdir_from [] (parent to_path) (fs w)) as [f1|e] eqn:Hmk.
  - destruct (guard_then_write _ _ _ Hex Hmk) as [Hd Hf].
    destruct (mirrors_split net urls)
      as [(exceptions & <- & HF)|(fails & u & page & rest & -> & HF & Hu)].
    + right. left. exists f1, exceptions. split; [done|]. split; [done|]. split.
      * unfold is_dir in Hf. unfold exists_at in Hex.
        destruct to_path as [|c l]; [done|].
        destruct (mkdir_from_spec _ _ _ _ Hmk) as [_ H2].
        destruct (H2 (c :: l)) as [->|(_ & Hdir & _)].
        -- by destruct (fs w !! (c :: l)).
        -- by rewrite Hdir in Hf.
      * by rewrite try_mirrors_all_fail.
    + right. right. exists f1, fails, u, page, rest.
      split; [done|]. split; [done|]. split; [done|].
      rewrite try_mirrors_failures by done.
      by rewrite (try_mirrors_good _ _ _ _ _ page).
  - left. destruct (mkdir_from_error _ _ _ _ Hmk) as [d ->]. by exists d.
Qed.

(** X5.  The converse of the mirror loop's two endings.  With nothing at
    the target, [download_] returns only if some mirror answered with
    content: the target then holds the body of the first mirror of the list
    that did not fail, that body is not empty, and the mirrors requested are
    the ones up to it.  It raises only the [OSError] of [mkdir], with nothing
    requested, or the loop's failure listing every mirror of the item with
    the error it failed with; in neither case is there a file at the
    target. *)
Theorem download__outcomes net to_path urls w :
  exists_at (fs w) to_path = false →
  (∀ v, (download_ net to_path urls w).1 = Returned v →
     v = PyNone ∧
     ∃ (fails : list (string * exn)) u page rest,
       urls = fails.*1 ++ u :: rest ∧
       Forall (λ ue, fetch net ue.1 = Raised ue.2) fails ∧
       fetch net u = Returned page ∧ page ≠ [] ∧
       fs (download_ net to_path urls w).2 !! to_path = Some (File page) ∧
       requested (trace (download_ net to_path urls w).2) =
         requested (trace w) ++ fails.*1 ++ [u]) ∧
  (∀ e, (download_ net to_path urls w).1 = Raised e →
     fs (download_ net to_path urls w).2 !! to_path = None ∧
     ((∃ d, e = ExOSError d ∧
            requested (trace (download_ net to_path urls w).2) = requested (trace w)) ∨
      (∃ exceptions : list (string * exn),
         e = ExFailed to_path exceptions ∧ exceptions.*1 = urls ∧
         Forall (λ ue, fetch net ue.1 = Raised ue.2) exceptions ∧
         requested (trace (download_ net to_path urls w).2) =
           requested (trace w) ++ urls))).
Proof.
  intros Hex.
  assert (Hnone : fs w !! to_path = None).
  { unfold exists_at in Hex. destruct to_path; [done|].
    by destruct (fs w !! (s :: to_path)). }
  destruct (download__cases net to_path urls w Hex)
    as [(d & ->)|[(f1 & exceptions & <- & HF & Hf1 & ->)
                 |(f1 & fails & u & page & rest & -> & HF & Hu & ->)]]; simpl.
  - split; [done|]. intros e [= <-]. split; [done|]. left. exists d.
    split; [done|]. rewrite requested_app. simpl. by rewrite app_nil_r.
  - split; [done|]. intros e [= <-]. split; [done|]. right. exists exceptions.
    split; [done|]. split; [done|]. split; [done|].
    rewrite !requested_app, requested_failures. simpl. by rewrite app_nil_r.
  - split; [|done]. intros v [= <-]. split; [done|].
    exists fails, u, page, rest. split; [done|]. split; [done|]. split; [done|].
    split; [by eapply receive_nonempty|]. split; [apply lookup_insert_eq|].
    rewrite !requested_app, requested_failures. simpl.
    by rewrite app_nil_r, <- app_assoc.
Qed.

Lemma download__outcomes_witness :
  PyNone = PyNone ∧
  ∃ (fails : list (string * exn)) u page rest,
    ["bad://x"; "good://y"; "good://z"] = fails.*1 ++ u :: rest ∧
    Forall (λ ue, fetch net0 ue.1 = Raised ue.2) fails ∧
    fetch net0 u = Returned page ∧ page ≠ [] ∧
    fs (download_ net0 ["out"; "0.jpg"] ["bad://x"; "good://y"; "good://z"] w0).2
      !! ["out"; "0.jpg"] = Some (File page) ∧
    requested (trace (download_ net0 ["out"; "0.jpg"]
                        ["bad://x"; "good://y"; "good://z"] w0).2) =
      requested (trace w0) ++ fails.*1 ++ [u].
Proof.
  exact (proj1 (download__outcomes net0 ["out"; "0.jpg"]
                  ["bad://x"; "good://y"; "good://z"] w0 eq_refl) PyNone eq_refl).
Defined.

(** X6.  Running an item again after it has returned is a no-op: whatever
    the mirrors and the network then are, the second run finds the target,
    logs the skip and returns, with no request, no write and the file system
    unchanged. *)
Theorem download__rerun_skips net net' to_path urls urls' w v :
  (download_ net to_path urls w).1 = Returned v →
  download_ net' to_path urls' (download_ net to_path urls w).2 =
  (Returned PyNone,
   mkWorld (fs (download_ net to_path urls w).2)
     (trace (download_ net to_path urls w).2 ++
      [EvExists to_path; EvLog Debug (LSkipping to_path)])).
Proof.
  intros Hret. apply download__present.
  destruct (exists_at (fs w) to_path) eqn:Hex.
  - by rewrite download__present.
  - destruct (download__cases net to_path urls w Hex)
      as [(d & Hr)|[(f1 & exceptions & _ & _ & _ & Hr)
                   |(f1 & fails & u & page & rest & _ & _ & _ & Hr)]];
      rewrite Hr in Hret |- *; simpl in *; try done.
    eapply exists_at_file. apply lookup_insert_eq.
Qed.

Lemma download__rerun_skips_witness :
  requested (trace (download_ net0 ["out"; "0.jpg"] ["down://d"]
                      (download_ net0 ["out"; "0.jpg"] ["good://y"] w0).2).2) =
  ["good://y"].
Proof.
  rewrite (download__rerun_skips net0 net0 ["out"; "0.jpg"] ["good://y"] ["down://d"]
             w0 PyNone eq_refl).
  reflexivity.
Defined.

(** ** The batch, step by step *)

Section BatchSteps.

Variable net : Request → Reply.

Lemma next_mirror_cases to_path urls exceptions w :
  (urls = [] ∧
   next_mirror to_path urls exceptions w = (TFailed (ExFailed to_path exceptions), w)) ∨
  (∃ u rest, urls = u :: rest ∧
     next_mirror to_path urls exceptions w =
       (TAwait to_path u rest exceptions,
        mkWorld (fs w) (trace w ++ [EvLog Debug (LDownloading u to_path);
                                    EvGet Aiohttp (image_request u)]))).
Proof.
  destruct urls as [|u rest]; [by left|]. right. exists u, rest.
  split; [done|]. simpl. unfold say. simpl. by rewrite <- app_assoc.
Qed.

(** The slices a task that is not finished can take. *)
Lemma task_step_cases t w :
  finished t = false →
  (∃ to_path urls, t = TReady to_path urls ∧
     ((exists_at (fs w) to_path = true ∧
       task_step net t w =
         (TDone PyNone,
          mkWorld (fs w) (trace w ++ [EvExists to_path;
                                      EvLog Debug (LSkipping to_path)]))) ∨
      (exists_at (fs w) to_path = false ∧
       ∃ d, task_step net t w =
              (TFailed (ExOSError d),
               mkWorld (fs w) (trace w ++ [EvExists to_path;
                                           EvMkdir (parent to_path)]))) ∨
      (exists_at (fs w) to_path = false ∧
       ∃ f1, mkdir_from [] (parent to_path) (fs w) = Returned f1 ∧
             task_step net t w =
               next_mirror to_path urls []
                 (mkWorld f1 (trace w ++ [EvExists to_path;
                                          EvMkdir (parent to_path)]))))) ∨
  (∃ to_path u rest exceptions, t = TAwait to_path u rest exceptions ∧
     ((∃ page, fetch net u = Returned page ∧
               is_dir (fs w) to_path = false ∧
               task_step net t w =
                 (TDone PyNone,
                  mkWorld (<[to_path := File page]> (fs w))
                    (trace w ++ [EvWrite to_path page;
                                 EvLog Debug (LDownloaded u to_path)]))) ∨
      (∃ page, fetch net u = Returned page ∧
               task_step net t w =
                 next_mirror to_path rest (exceptions ++ [(u, ExOSError to_path)])
                   (mkWorld (fs w)
                      (trace w ++ [EvWrite to_path page;
                                   EvLog Error (LException (ExOSError to_path))]))) ∨
      (∃ e, fetch net u = Raised e ∧
            task_step net t w =
              next_mirror to_path rest (exceptions ++ [(u, e)])
                (mkWorld (fs w) (trace w ++ [EvLog Error (LException e)]))))).
Proof.
  destruct t as [to_path urls|to_path u rest exceptions|v|e]; [| |done..]; intros _.
  - left. exists to_path, urls. split; [done|]. simpl.
    destruct (exists_at (fs w) to_path) eqn:Hex.
    + left. split; [done|]. unfold say. simpl. by rewrite <- app_assoc.
    + right. py_run. destruct (mkdir_from _ _ _) as [f1|e] eqn:Hmk; simpl.
      * right. split; [done|]. exists f1. split; [done|]. by rewrite <- app_assoc.
      * left. split; [done|]. destruct (mkdir_from_error _ _ _ _ Hmk) as [d ->].
        exists d. by rewrite <- app_assoc.
  - right. exists to_path, u, rest, exceptions. split; [done|]. simpl. py_run.
    destruct (fetch net u) as [page|e]; simpl.
    + destruct (is_dir (fs w) (parent to_path)); simpl.
      * destruct (is_dir (fs w) to_path) eqn:Hf; simpl.
        -- right. left. exists page. split; [done|]. by rewrite <- app_assoc.
        -- left. exists page. split; [done|]. split; [done|].
           by rewrite <- app_assoc.
      * right. left. exists page. split; [done|]. by rewrite <- app_assoc.
    + right. right. by exists e.
Qed.

End BatchSteps.

Section BatchInvariants.

Variable net : Request → Reply.

Lemma next_mirror_fs to_path urls exceptions w :
  fs (next_mirror to_path urls exceptions w).2 = fs w.
Proof. by destruct urls. Qed.


Lemma next_mirror_not_done to_path urls exceptions w :
  done (next_mirror to_path urls exceptions w).1 = false.
Proof. by destruct urls. Qed.


End BatchInvariants.



Section BatchEffects.

Variable net : Request → Reply.

Lemma next_mirror_of_item it to_path urls exceptions w :
  to_path = it.1 → exceptions.*1 ++ urls = it.2 →
  ∃ tl, trace (next_mirror to_path urls exceptions w).2 = trace w ++ tl ∧
        Forall (of_item net it) tl.
Proof.
  intros -> Hurls.
  destruct (next_mirror_cases it.1 urls exceptions w)
    as [[-> ->]|(u & rest & -> & ->)]; simpl.
  - exists []. by rewrite app_nil_r.
  - eexists. split; [done|]. repeat constructor. simpl.
    rewrite <- Hurls. set_solver.
Qed.

(** The events of a slice are events of the task's item. *)
Lemma task_step_of_item it t w :
  item_task it t →
  ∃ tl, trace (task_step net t w).2 = trace w ++ tl ∧ Forall (of_item net it) tl.
Proof.
  intros Hit. destruct (finished t) eqn:Hfin.
  { rewrite task_step_finished by done. exists []. by rewrite app_nil_r. }
  destruct (task_step_cases net t w Hfin)
    as [(to_path & urls & -> & [[Hex ->]|[[Hex [d ->]]|[Hex (f1 & Hmk & ->)]]])
       |(to_path & u & rest & exceptions & -> &
         [(page & Hu & Hf & ->)|[(page & Hu & ->)|(e & Hu & ->)]])];
    simpl in Hit; destruct Hit as [-> Hurls]; simpl.
  - eexists. split; [done|]. repeat constructor.
  - eexists. split; [done|]. repeat constructor.
  - destruct (next_mirror_of_item it it.1 urls []
        (mkWorld f1 (trace w ++ [EvExists it.1; EvMkdir (parent it.1)])))
      as (tl & -> & HF); [done..|].
    eexists. simpl. rewrite <- app_assoc. split; [done|].
    repeat (constructor; [done|]). done.
  - assert (Hin : u ∈ it.2) by (rewrite <- Hurls; set_solver).
    eexists. split; [done|]. repeat constructor; simpl.
    + by eapply receive_nonempty.
    + by exists u.
  - assert (Hin : u ∈ it.2) by (rewrite <- Hurls; set_solver).
    match goal with |- context [next_mirror ?p ?l ?x ?w1] =>
      destruct (next_mirror_of_item it p l x w1) as (tl & -> & HF) end; [done| |].
    { by rewrite fmap_app, <- app_assoc. }
    eexists. simpl. rewrite <- app_assoc. split; [done|].
    constructor; [|constructor; [done|done]]. simpl.
    split; [done|]. split; [by eapply receive_nonempty|]. by exists u.
  - match goal with |- context [next_mirror ?p ?l ?x ?w1] =>
      destruct (next_mirror_of_item it p l x w1) as (tl & -> & HF) end; [done| |].
    { by rewrite fmap_app, <- app_assoc. }
    eexists. simpl. rewrite <- app_assoc. split; [done|].
    constructor; [done|done].
Qed.

Lemma gather_confined items schedule ts w :
  Forall2 item_task items ts →
  ∃ tl, trace (gather net schedule ts w).2 = trace w ++ tl ∧
        Forall (batch_event net items) tl.
Proof.
  intros Hts.
  apply (gather_invariant net
    (λ ts' w', Forall2 item_task items ts' ∧
               ∃ tl, trace w' = trace w ++ tl ∧ Forall (batch_event net items) tl));
    [|split; [done|exists []; by rewrite app_nil_r]].
  clear schedule ts Hts. intros ts w' i t (Hit & tl & Htl & HF) Hi Hfin.
  destruct (Forall2_lookup_r _ _ _ _ _ Hit Hi) as (it & Hiti & Ht).
  split.
  - rewrite <- (list_insert_id items i it) by done.
    apply Forall2_insert; [done|]. by apply task_step_item.
  - destruct (task_step_of_item it t w' Ht) as (tl' & -> & HF').
    exists (tl ++ tl'). rewrite Htl, <- app_assoc. split; [done|].
    apply Forall_app. split; [done|].
    eapply Forall_impl; [exact HF'|]. intros ev Hev. exists it.
    split; [by eapply list_elem_of_lookup_2|done].
Qed.

End BatchEffects.

(** X8.  A batch acts for its items only.  Every request it sends goes to a
    mirror listed for one of the items, every existence check and every
    write is at the target of one of the items, and whatever it writes is the
    non-empty body that one of that item's own mirrors serves: no file is
    written empty or with another item's content. *)
Theorem _download_confined net schedule items w :
  ∃ tl, trace (_download net schedule items w).2 = trace w ++ tl ∧
        Forall (batch_event net items) tl ∧
        (∀ u, u ∈ requested tl → ∃ it, it ∈ items ∧ u ∈ it.2) ∧
        (∀ p, p ∈ written tl → ∃ it, it ∈ items ∧ p = it.1).
Proof.
  destruct (gather_confined net items (seq 0 (length items) ++ schedule)
              (create_tasks items) w (create_tasks_item items))
    as (tl & Htl & HF).
  exists tl. split; [done|]. split; [done|]. split.
  - intros u Hu. apply list_elem_of_omap in Hu as (ev & Hev & Hsome).
    destruct (proj1 (Forall_forall _ _) HF ev Hev) as (it & Hit & Hof).
    exists it. split; [done|].
    destruct ev as [[] r| | | |]; simpl in *; try done.
    injection Hsome as <-. by destruct Hof as (_ & _ & ?).
  - intros p Hp. apply list_elem_of_omap in Hp as (ev & Hev & Hsome).
    destruct (proj1 (Forall_forall _ _) HF ev Hev) as (it & Hit & Hof).
    exists it. split; [done|].
    destruct ev as [c r| | | |]; simpl in *; try done.
    injection Hsome as <-. by destruct Hof as (? & _).
Qed.

Lemma _download_confined_witness :
  ∃ tl, trace (_download net0 schedule5 batch5 w0).2 = trace w0 ++ tl ∧
        Forall (batch_event net0 batch5) tl ∧
        (∀ u, u ∈ requested tl → ∃ it, it ∈ batch5 ∧ u ∈ it.2) ∧
        (∀ p, p ∈ written tl → ∃ it, it ∈ batch5 ∧ p = it.1).
Proof. exact (_download_confined net0 schedule5 batch5 w0). Defined.

Section BatchRerun.

Variable net : Request → Reply.

(** When every task is over or is about to find its target on disk, the
    batch checks and logs, and does nothing else. *)
Lemma gather_present_quiet schedule ts w :
  (∀ i t, ts !! i = Some t →
     t = TDone PyNone ∨
     ∃ to_path urls, t = TReady to_path urls ∧ exists_at (fs w) to_path = true) →
  fs (gather net schedule ts w).2 = fs w ∧
  (∀ i t, (gather net schedule ts w).1.2 !! i = Some t → failed t = false) ∧
  requested (trace (gather net schedule ts w).2) = requested (trace w) ∧
  written (trace (gather net schedule ts w).2) = written (trace w).
Proof.
  intros Hts.
  cut ((λ ts' w',
          fs w' = fs w ∧
          (∀ i t, ts' !! i = Some t →
             t = TDone PyNone ∨
             ∃ to_path urls, t = TReady to_path urls ∧
                             exists_at (fs w) to_path = true) ∧
          requested (trace w') = requested (trace w) ∧
          written (trace w') = written (trace w))
         (gather net schedule ts w).1.2 (gather net schedule ts w).2).
  { intros (Hfs & Hts' & Hreq & Hwr). split; [done|]. split; [|done].
    intros i t Hi. by destruct (Hts' i t Hi) as [->|(? & ? & -> & _)]. }
  apply gather_invariant; [|done].
  clear schedule ts Hts. intros ts w' i t (Hfs & Hts & Hreq & Hwr) Hi Hfin.
  destruct (Hts i t Hi) as [->|(to_path & urls & -> & Hex)]; [done|].
  simpl. rewrite Hfs, Hex. simpl. split; [done|]. split; [|split].
  - intros j t Hj.
    apply list_lookup_insert_Some in Hj as [(_ & <- & _)|[_ Hj]]; [by left|eauto].
  - rewrite !requested_app, Hreq. simpl. by rewrite !app_nil_r.
  - rewrite !written_app, Hwr. simpl. by rewrite !app_nil_r.
Qed.

(** With one turn for every task, such a batch returns. *)
Lemma run_slices_present schedule ts w :
  (∀ i t, ts !! i = Some t →
     t = TDone PyNone ∨
     ∃ to_path urls, t = TReady to_path urls ∧
                     exists_at (fs w) to_path = true ∧ i ∈ schedule) →
  (run_slices net schedule None ts w).1.1 = None ∧
  forallb done (run_slices net schedule None ts w).1.2 = true.
Proof.
  revert ts w. induction schedule as [|i schedule IH]; intros ts w Hts.
  - simpl. split; [done|].
    apply Is_true_true_1, forallb_True, Forall_lookup. intros j t Hj.
    destruct (Hts j t Hj) as [->|(? & ? & _ & _ & Hin)]; [done|].
    by apply elem_of_nil in Hin.
  - rewrite run_slices_cons. destruct (ts !! i) as [t|] eqn:Hi.
    + destruct (Hts i t Hi) as [->|(to_path & urls & -> & Hex & _)]; simpl.
      * apply IH. intros j t Hj.
        destruct (Hts j t Hj) as [->|(p & l & -> & Hp & Hin)]; [by left|].
        right. exists p, l. split; [done|]. split; [done|].
        apply elem_of_cons in Hin as [->|]; [congruence|done].
      * rewrite Hex. apply IH. simpl. intros j t Hj.
        apply list_lookup_insert_Some in Hj as [(_ & <- & _)|[Hne Hj]]; [by left|].
        destruct (Hts j t Hj) as [->|(p & l & -> & Hp & Hin)]; [by left|].
        right. exists p, l. split; [done|]. split; [done|].
        apply elem_of_cons in Hin as [->|]; [done|done].
    + apply IH. intros j t Hj.
      destruct (Hts j t Hj) as [->|(p & l & -> & Hp & Hin)]; [by left|].
      right. exists p, l. split; [done|]. split; [done|].
      apply elem_of_cons in Hin as [->|]; [congruence|done].
Qed.

Lemma gather_present_returns schedule ts w :
  (∀ i t, ts !! i = Some t →
     t = TDone PyNone ∨
     ∃ to_path urls, t = TReady to_path urls ∧
                     exists_at (fs w) to_path = true ∧ i ∈ schedule) →
  (gather net schedule ts w).1.1 = Some (Returned PyNone).
Proof.
  intros Hts. rewrite gather_answer.
  destruct (run_slices_present schedule ts w Hts) as [-> ->]. done.
Qed.

Lemma create_tasks_present (items : list (Path * list string))
    (f : gmap Path node) i t :
  Forall (λ it, exists_at f it.1 = true) items →
  create_tasks items !! i = Some t →
  ∃ to_path urls, t = TReady to_path urls ∧ exists_at f to_path = true ∧
                  i < length items.
Proof.
  intros Hall Hi. unfold create_tasks in Hi. rewrite list_lookup_fmap in Hi.
  destruct (items !! i) as [it|] eqn:Hit; [|done]. injection Hi as <-.
  exists it.1, it.2. split; [done|]. split.
  - by apply (Forall_lookup_1 _ _ _ _ Hall Hit).
  - by eapply lookup_lt_Some.
Qed.

(** A slice never removes an entry of the file system. *)
Lemma task_step_exists_mono t w q :
  exists_at (fs w) q = true → exists_at (fs (task_step net t w).2) q = true.
Proof.
  intros Hq. destruct (finished t) eqn:Hfin.
  { by rewrite task_step_finished. }
  assert (Hmono : ∀ f' : gmap Path node,
            (∀ x, fs w !! q = Some x → is_Some (f' !! q)) → exists_at f' q = true).
  { intros f' Hf'. unfold exists_at in *. destruct q as [|c l]; [done|].
    destruct (fs w !! (c :: l)) as [x|] eqn:Hx; [|done].
    by destruct (Hf' x eq_refl) as [y ->]. }
  destruct (task_step_cases net t w Hfin)
    as [(to_path & urls & -> & [[Hex ->]|[[Hex [d ->]]|[Hex (f1 & Hmk & ->)]]])
       |(to_path & u & rest & exceptions & -> &
         [(page & Hu & Hf & ->)|[(page & Hu & ->)|(e & Hu & ->)]])];
    rewrite ?next_mirror_fs; simpl; try done.
  - apply Hmono. intros x Hx. exists x. by eapply mkdir_from_keeps.
  - apply Hmono. intros x Hx. destruct (decide (to_path = q)) as [->|Hne].
    + rewrite lookup_insert_eq. by eexists.
    + rewrite lookup_insert_ne by done. by eexists.
Qed.

(** A task that has returned has its target on disk. *)
Lemma gather_done_exists items schedule ts w :
  Forall2 item_task items ts →
  (∀ i it t, items !! i = Some it → ts !! i = Some t → done t = true →
             exists_at (fs w) it.1 = true) →
  ∀ i it t, items !! i = Some it → (gather net schedule ts w).1.2 !! i = Some t →
            done t = true → exists_at (fs (gather net schedule ts w).2) it.1 = true.
Proof.
  intros Hits Hdone.
  apply (gather_invariant net
    (λ ts' w', Forall2 item_task items ts' ∧
               ∀ i it t, items !! i = Some it → ts' !! i = Some t → done t = true →
                         exists_at (fs w') it.1 = true)); [|done].
  clear schedule ts w Hits Hdone. intros ts w i t [Hits Hdone] Hi Hfin.
  destruct (Forall2_lookup_r _ _ _ _ _ Hits Hi) as (it & Hiti & Ht).
  split.
  { rewrite <- (list_insert_id items i it) by done.
    apply Forall2_insert; [done|]. by apply task_step_item. }
  intros j it' t' Hj Hl Hd.
  apply list_lookup_insert_Some in Hl as [(<- & <- & _)|[Hne Hl]].
  - assert (it' = it) as -> by congruence.
    destruct (task_step_cases net t w Hfin)
      as [(to_path & urls & -> & [[Hex Hr]|[[Hex [d Hr]]|[Hex (f1 & Hmk & Hr)]]])
         |(to_path & u & rest & exceptions & -> &
           [(page & Hu & Hf & Hr)|[(page & Hu & Hr)|(e & Hu & Hr)]])];
      rewrite Hr in Hd |- *; simpl in Ht; destruct Ht as [-> Hurls];
      rewrite ?next_mirror_not_done in Hd; simpl in *; try done.
    eapply exists_at_file. apply lookup_insert_eq.
  - apply task_step_exists_mono. by eapply Hdone.
Qed.

End BatchRerun.

(** X9.  A batch whose targets are all on disk does no network or disk
    work: for any schedule and any network it sends no request, writes
    nothing, leaves the file system as it is and cannot raise; and as soon as
    the schedule gives every item one turn, it returns. *)
Theorem _download_all_present net schedule items w :
  Forall (λ it, exists_at (fs w) it.1 = true) items →
  fs (_download net schedule items w).2 = fs w ∧
  requested (trace (_download net schedule items w).2) = requested (trace w) ∧
  written (trace (_download net schedule items w).2) = written (trace w) ∧
  (∀ e, (_download net schedule items w).1.1 ≠ Some (Raised e)) ∧
  ((∀ i, i < length items → i ∈ schedule) →
   (_download net schedule items w).1.1 = Some (Returned PyNone)).
Proof.
  intros Hall. unfold _download.
  destruct (gather_present_quiet net (seq 0 (length items) ++ schedule)
              (create_tasks items) w) as (Hfs & Hnf & Hreq & Hwr).
  { intros i t Hi. right.
    destruct (create_tasks_present items (fs w) i t Hall Hi)
      as (p & l & -> & Hp & _).
    by exists p, l. }
  split; [done|]. split; [done|]. split; [done|]. split.
  - intros e He.
    destruct (gather_spec net items (seq 0 (length items) ++ schedule)
                (create_tasks items) w (create_tasks_item items)
                (create_tasks_fresh items)) as (_ & _ & Hraise & _).
    destruct (Hraise e He) as [i Hi]. by specialize (Hnf i _ Hi).
  - intros Hturns. apply gather_present_returns. intros i t Hi. right.
    destruct (create_tasks_present items (fs w) i t Hall Hi)
      as (p & l & -> & Hp & Hlt).
    exists p, l. split; [done|]. split; [done|].
    apply elem_of_app. right. by apply Hturns.
Qed.

Lemma _download_all_present_witness :
  requested (trace (_download net0 [0] [(["out"; "0.jpg"], ["down://d"])] w_have).2) = [] ∧
  (_download net0 [0] [(["out"; "0.jpg"], ["down://d"])] w_have).1.1 =
    Some (Returned PyNone).
Proof.
  destruct (_download_all_present net0 [0] [(["out"; "0.jpg"], ["down://d"])] w_have)
    as (_ & Hreq & _ & _ & Hret).
  - repeat constructor.
  - split; [exact Hreq|]. apply Hret. intros i Hi. simpl in Hi.
    destruct i as [|i]; [|lia]. apply list_elem_of_here.
Defined.

(** X10.  When a batch has returned, the target of every one of its items
    is on disk; running the same batch again, under any schedule and against
    any network, then sends no request, writes nothing and changes nothing on
    disk. *)
Theorem _download_completed_then_idle net schedule items w v ts w' :
  _download net schedule items w = (Some (Returned v), ts, w') →
  Forall (λ it, exists_at (fs w') it.1 = true) items ∧
  ∀ net' schedule',
    fs (_download net' schedule' items w').2 = fs w' ∧
    requested (trace (_download net' schedule' items w').2) = requested (trace w') ∧
    written (trace (_download net' schedule' items w').2) = written (trace w').
Proof.
  intros Hg. unfold _download in Hg.
  assert (Hall : Forall (λ it, exists_at (fs w') it.1 = true) items).
  { destruct (gather_spec net items (seq 0 (length items) ++ schedule)
                (create_tasks items) w (create_tasks_item items)
                (create_tasks_fresh items)) as (Hits & Hret & _).
    pose proof (gather_done_exists net items (seq 0 (length items) ++ schedule)
                  (create_tasks items) w (create_tasks_item items)) as Hex.
    rewrite Hg in Hits, Hret, Hex. simpl in Hits, Hret, Hex.
    destruct (Hret v eq_refl) as [_ Hdone].
    apply Forall_lookup. intros i it Hit.
    destruct (Forall2_lookup_l _ _ _ _ _ Hits Hit) as (t & Ht & _).
    pose proof (Forall_lookup_1 _ _ _ _ Hdone Ht) as ->.
    eapply Hex; [|done|done|done].
    intros j it' t' _ Hj Hd. unfold create_tasks in Hj.
    rewrite list_lookup_fmap in Hj. destruct (items !! j); [|done].
    by injection Hj as <-. }
  split; [done|]. intros net' schedule'. unfold _download.
  destruct (gather_present_quiet net' (seq 0 (length items) ++ schedule')
              (create_tasks items) w') as (Hfs & _ & Hreq & Hwr); [|done].
  intros i t Hi. right.
  destruct (create_tasks_present items (fs w') i t Hall Hi) as (p & l & -> & Hp & _).
  by exists p, l.
Qed.

Lemma _download_completed_then_idle_witness :
  requested (trace (_download net0 [0; 1]
                      [(["out"; "0.jpg"], ["bad://x"; "good://y"]);
                       (["out"; "1.jpg"], ["good://z"])]
                      (_download net0 [0; 1; 0; 1; 0]
                         [(["out"; "0.jpg"], ["bad://x"; "good://y"]);
                          (["out"; "1.jpg"], ["good://z"])] w0).2).2) =
  ["bad://x"; "good://z"; "good://y"].
Proof.
  destruct (_download_completed_then_idle net0 [0; 1; 0; 1; 0]
              [(["out"; "0.jpg"], ["bad://x"; "good://y"]);
               (["out"; "1.jpg"], ["good://z"])] w0 PyNone
              (_download net0 [0; 1; 0; 1; 0]
                 [(["out"; "0.jpg"], ["bad://x"; "good://y"]);
                  (["out"; "1.jpg"], ["good://z"])] w0).1.2
              (_download net0 [0; 1; 0; 1; 0]
                 [(["out"; "0.jpg"], ["bad://x"; "good://y"]);
                  (["out"; "1.jpg"], ["good://z"])] w0).2 eq_refl) as [_ Hidle].
  destruct (Hidle net0 [0; 1]) as (_ & Hreq & _).
  rewrite Hreq. reflexivity.
Defined.

(** ** A batch of one item *)

(** What [gather] holds of a task: its exception when it has raised. *)
Definition raised_of (t : task) : option exn :=
  match t with TFailed e => Some e | _ => None end.

Lemma run_task_S net n t w :
  run_task net (S n) t w =
  run_task net n (task_step net t w).1 (task_step net t w).2.
Proof. simpl. by destruct (task_step net t w). Qed.

(** A task that has had the turns it can take is over, and further turns
    change nothing. *)
Lemma run_task_finishes net n t w :
  remaining t ≤ n → finished (run_task net n t w).1 = true.
Proof.
  revert t w. induction n as [|n IH]; intros t w Hrem.
  { destruct t; simpl in *; done || lia. }
  destruct (finished t) eqn:Hfin.
  { by rewrite run_task_finished. }
  rewrite run_task_S. apply IH.
  pose proof (task_step_remaining net t w Hfin). lia.
Qed.

Lemma run_task_enough net n t w :
  remaining t ≤ n → run_task net (S n) t w = run_task net n t w.
Proof.
  revert t w. induction n as [|n IH]; intros t w Hrem.
  { assert (Hfin : finished t = true) by (destruct t; simpl in *; done || lia).
    by rewrite !run_task_finished. }
  destruct (finished t) eqn:Hfin.
  { by rewrite !run_task_finished. }
  rewrite (run_task_S net (S n) t), (run_task_S net n t). apply IH.
  pose proof (task_step_remaining net t w Hfin). lia.
Qed.

Lemma run_slices_single net n raised t w :
  raised = raised_of t →
  run_slices net (replicate n 0) raised [t] w =
  (raised_of (run_task net n t w).1,
   [(run_task net n t w).1], (run_task net n t w).2).
Proof.
  revert raised t w. induction n as [|n IH]; intros raised t w ->; [done|].
  change (replicate (S n) 0) with (0 :: replicate n 0).
  rewrite run_slices_cons. change ([t] !! 0) with (Some t). cbv beta iota.
  destruct (finished t) eqn:Hfin.
  - rewrite IH by done. by rewrite !run_task_finished.
  - rewrite run_task_S. change (<[0:=?x]> [t]) with [x].
    apply IH. by destruct t.
Qed.

Lemma gather_single net n t w :
  failed t = false → remaining t ≤ n →
  gather net (replicate n 0) [t] w =
  (Some (answer_of (run_task net n t w).1),
   [(run_task net n t w).1], (run_task net n t w).2).
Proof.
  intros Hnf Hrem. unfold gather. rewrite (run_slices_single net n None t w).
  - pose proof (run_task_finishes net n t w Hrem) as Hfin.
    destruct (run_task net n t w) as [t' w']. simpl in *. by destruct t'.
  - by destruct t.
Qed.

Lemma download__returns_none net to_path urls w v :
  (download_ net to_path urls w).1 = Returned v → v = PyNone.
Proof.
  destruct (exists_at (fs w) to_path) eqn:Hex.
  - rewrite download__present by done. by intros [= <-].
  - destruct (download__cases net to_path urls w Hex)
      as [(d & ->)|[(f1 & exceptions & _ & _ & _ & ->)
                   |(f1 & fails & u & page & rest & _ & _ & _ & ->)]]; simpl;
      [done..|by intros [= <-]].
Qed.

(** X11.  A batch of a single item is that item's pipeline: resumed as
    often as it has mirrors and once more, [_download] answers what
    [download_] answers for the item (returning when it returns, raising the
    exception it raises) and leaves the same file system and the same
    trace. *)
Theorem _download_single_item net to_path urls w :
  _download net (replicate (S (length urls)) 0) [(to_path, urls)] w =
  (Some (download_ net to_path urls w).1,
   [task_of_outcome (download_ net to_path urls w).1],
   (download_ net to_path urls w).2).
Proof.
  unfold _download, create_tasks.
  change ((λ it : Path * list string, TReady it.1 it.2) <$> [(to_path, urls)])
    with [TReady to_path urls].
  change (seq 0 (length [(to_path, urls)]) ++ replicate (S (length urls)) 0)
    with (replicate (S (S (length urls))) 0).
  rewrite gather_single by (simpl; done || lia).
  rewrite run_task_enough by (simpl; lia).
  rewrite run_task_download_. simpl.
  destruct (download_ net to_path urls w) as [[v|e] w1] eqn:Hd; simpl; [|done].
  assert (v = PyNone) as ->; [|done].
  eapply (download__returns_none net to_path urls w). by rewrite Hd.
Qed.

(** ** The pipeline over the chapters *)

Section Pipeline.

Variable net : Request → Reply.
Variable find_pg : string → option (list string).
Variable find_info : string → option chapter_info.

Lemma download_chapters_app path chs1 chs2 schedules w :
  download_chapters net find_pg find_info path (chs1 ++ chs2) schedules w =
  match download_chapters net find_pg find_info path chs1 schedules w with
  | (Some (Returned _), w') =>
      download_chapters net find_pg find_info path chs2
        (drop (length chs1) schedules) w'
  | r => r
  end.
Proof.
  revert schedules w. induction chs1 as [|ch chs1 IH]; intros schedules w.
  { done. }
  simpl. destruct (download_chapter _ _ _ _ _ _ _) as [[[v|e]|] w1]; [|done..].
  rewrite IH. destruct schedules; simpl; [by rewrite !drop_nil|done].
Qed.

Lemma resolved_app tr1 tr2 : resolved (tr1 ++ tr2) = resolved tr1 ++ resolved tr2.
Proof. apply omap_app. Qed.

Lemma resolved_session tl : Forall session_event tl → resolved tl = [].
Proof.
  induction 1 as [|ev tl Hev _ IH]; [done|].
  destruct ev as [[] r| | | |]; simpl in *; try done. by destruct Hev.
Qed.

(** A chapter sends one plain request, the one for its page. *)
Lemma download_chapter_resolved path ch schedule w :
  resolved (trace (download_chapter net find_pg find_info path ch schedule w).2) =
  resolved (trace w) ++ [url ch].
Proof.
  unfold download_chapter.
  pose proof (get_chapter_pages_world net find_pg find_info (url ch) w) as Hw.
  destruct (get_chapter_pages net find_pg find_info (url ch) w) as [[pages|e] w1];
    simpl in Hw; subst w1.
  - match goal with |- context [_download net schedule ?items ?w1] =>
      destruct (gather_effects net (seq 0 (length items) ++ schedule)
                  (create_tasks items) w1) as (tl & Htl & HF);
      unfold _download;
      destruct (gather net (seq 0 (length items) ++ schedule)
                  (create_tasks items) w1) as [[r ts] w2] end.
    simpl in *. rewrite Htl, !resolved_app, (resolved_session tl HF). simpl.
    by rewrite !app_nil_r.
  - simpl. by rewrite resolved_app.
Qed.

Lemma download_chapters_resolved path chs schedules w :
  ∃ k, k ≤ length chs ∧
    resolved (trace (download_chapters net find_pg find_info path chs schedules w).2) =
      resolved (trace w) ++ take k (url <$> chs) ∧
    (chs ≠ [] → 0 < k) ∧
    (∀ v, (download_chapters net find_pg find_info path chs schedules w).1 =
            Some (Returned v) → k = length chs).
Proof.
  revert schedules w. induction chs as [|ch chs IH]; intros schedules w.
  { exists 0. simpl. rewrite app_nil_r. done. }
  simpl.
  pose proof (download_chapter_resolved path ch (hd [] schedules)
                (say (EvLog Info (LChapterStart (number ch) (name ch))) w)) as Hch.
  destruct (download_chapter _ _ _ _ _ _ _) as [[[v|e]|] w1]; simpl in Hch.
  - destruct (IH (tl schedules)
                (say (EvLog Info (LChapterEnd (number ch) (name ch))) w1))
      as (k & Hk & Hres & _ & Hall).
    exists (S k). split; [lia|]. split; [|split; [lia|]].
    + rewrite Hres, say_trace, resolved_app, Hch, resolved_app.
      change (resolved [EvLog Info (LChapterStart (number ch) (name ch))]) with (@nil string).
      change (resolved [EvLog Info (LChapterEnd (number ch) (name ch))]) with (@nil string).
      rewrite !app_nil_r, <- app_assoc. done.
    + intros v' Hv'. f_equal. by eapply Hall.
  - exists 1. split; [lia|]. split; [|split; [lia|done]].
    cbn [snd]. rewrite Hch, resolved_app.
    change (resolved [EvLog Info (LChapterStart (number ch) (name ch))]) with (@nil string).
    rewrite app_nil_r. simpl. by rewrite take_0.
  - exists 1. split; [lia|]. split; [|split; [lia|done]].
    cbn [snd]. rewrite Hch, resolved_app.
    change (resolved [EvLog Info (LChapterStart (number ch) (name ch))]) with (@nil string).
    rewrite app_nil_r. simpl. by rewrite take_0.
Qed.

End Pipeline.

(** X12.  The chapters are run one after the other and the first one that
    does not complete ends the run: if running the chapters [chs1] ends with
    an exception (or with a batch that is not driven to its end), running
    [chs1] followed by any further chapters ends the same way in the same
    world, so nothing is done for the later chapters; if [chs1] completes,
    the run goes on with the later chapters, the schedules left and the world
    [chs1] left behind. *)
Theorem download_chapters_stop_at_failure net find_pg find_info path chs1 chs2
    schedules w :
  ((∀ v, (download_chapters net find_pg find_info path chs1 schedules w).1 ≠
           Some (Returned v)) →
   download_chapters net find_pg find_info path (chs1 ++ chs2) schedules w =
   download_chapters net find_pg find_info path chs1 schedules w) ∧
  (∀ v w',
     download_chapters net find_pg find_info path chs1 schedules w =
       (Some (Returned v), w') →
     download_chapters net find_pg find_info path (chs1 ++ chs2) schedules w =
     download_chapters net find_pg find_info path chs2
       (drop (length chs1) schedules) w').
Proof.
  rewrite download_chapters_app. split.
  - intros Hfail.
    destruct (download_chapters _ _ _ _ chs1 _ _) as [[[v|e]|] w1]; [|done..].
    by destruct (Hfail v).
  - by intros v w' ->.
Qed.

Lemma download_chapters_stop_at_failure_witness :
  download_chapters net_site find_pg0 find_info0 ["out"; "jojo"]
    ([mkChapter "Middle" "24" "94" "https://mangalib.me/jojo/v24/c94"] ++
     [mkChapter "First" "1" "1" "https://mangalib.me/jojo/v1/c1"]) [] w0 =
  (Some (Raised ExParse),
   mkWorld ∅
     [EvLog Info (LChapterStart "94" "Middle");
      EvLog Debug (LGettingPages "https://mangalib.me/jojo/v24/c94");
      EvGet Requests (mkRequest "https://mangalib.me/jojo/v24/c94" [])]).
Proof.
  rewrite (proj1 (download_chapters_stop_at_failure net_site find_pg0 find_info0
    ["out"; "jojo"]
    [mkChapter "Middle" "24" "94" "https://mangalib.me/jojo/v24/c94"]
    [mkChapter "First" "1" "1" "https://mangalib.me/jojo/v1/c1"] [] w0)).
  - reflexivity.
  - intros v H. vm_compute in H. discriminate.
Defined.

(** X13.  [download] fetches the chapter pages strictly in the order of
    [self.chapters], each at most once and nothing else through [requests]:
    the plain requests of a run are the URLs of the first [k] chapters, in
    order.  The first chapter is always attempted, and a run that returns has
    fetched the page of every chapter. *)
Theorem download_resolves_in_order net find_pg find_info self path schedules w :
  ∃ k, k ≤ length (chapters self) ∧
    resolved (trace (download net find_pg find_info self path schedules w).2) =
      resolved (trace w) ++ take k (url <$> chapters self) ∧
    (chapters self ≠ [] → 0 < k) ∧
    (∀ v, (download net find_pg find_info self path schedules w).1 =
            Some (Returned v) → k = length (chapters self)).
Proof. unfold download. apply download_chapters_resolved. Qed.

Lemma download_resolves_in_order_witness :
  ∃ k, k ≤ length (chapters md0) ∧
    resolved (trace (download net_site find_pg0 find_info0 md0 ["out"]
                       [schedule2] w0).2) =
      resolved (trace w0) ++ take k (url <$> chapters md0) ∧
    (chapters md0 ≠ [] → 0 < k) ∧
    (∀ v, (download net_site find_pg0 find_info0 md0 ["out"] [schedule2] w0).1 =
            Some (Returned v) → k = length (chapters md0)).
Proof.
  exact (download_resolves_in_order net_site find_pg0 find_info0 md0 ["out"]
           [schedule2] w0).
Defined.

(** The whole run on the small site: the first chapter is downloaded from the
    second server of each page, and the run halts at the second chapter,
    whose page does not resolve. *)
Example download_end_to_end :
  let r := download net_site find_pg0 find_info0 md0 ["out"] [schedule2] w0 in
  r.1 = Some (Raised ExParse) ∧
  fs r.2 !! ["out"; "jojo"; "1"; "0.jpg"] = Some (File (bs "IMG")) ∧
  fs r.2 !! ["out"; "jojo"; "1"; "1.jpg"] = Some (File (bs "IMG")) ∧
  resolved (trace r.2) =
    ["https://mangalib.me/jojo/v1/c1"; "https://mangalib.me/jojo/v24/c94"] ∧
  requested (trace r.2) =
    ["bad://x/img/jojo/0.png"; "bad://x/img/jojo/1.png";
     "cdn://main/img/jojo/0.png"; "cdn://main/img/jojo/1.png"].
Proof. repeat split; reflexivity. Qed.

(** ** What one item and one chapter change *)

(** X14.  One run of [download_] writes at most once, and only at its
    target: the trace gains no write at all, or exactly one write at the
    target, and the latter happens exactly when nothing was at the target and
    the run returns. *)
Theorem download__writes_at_most_once net to_path urls w :
  ∃ tl, trace (download_ net to_path urls w).2 = trace w ++ tl ∧
    (written tl = [] ∨ written tl = [to_path]) ∧
    (written tl = [to_path] ↔
     exists_at (fs w) to_path = false ∧
     ∃ v, (download_ net to_path urls w).1 = Returned v).
Proof.
  destruct (exists_at (fs w) to_path) eqn:Hex.
  { rewrite download__present by done. eexists. split; [done|].
    split; [by left|]. split; [done|]. by intros [? _]. }
  destruct (download__cases net to_path urls w Hex)
    as [(d & ->)|[(f1 & exceptions & _ & _ & _ & ->)
                 |(f1 & fails & u & page & rest & _ & _ & _ & ->)]]; simpl.
  - eexists. split; [done|]. split; [by left|].
    split; [done|]. by intros [_ [v ?]].
  - eexists. rewrite <- app_assoc. split; [done|].
    rewrite written_app, written_failures. simpl.
    split; [by left|]. split; [done|]. by intros [_ [v ?]].
  - eexists. rewrite <- !app_assoc. split; [done|].
    rewrite !written_app, written_failures. simpl.
    split; [by right|]. split; [|done]. intros _. split; [done|]. by eexists.
Qed.

Lemma download__writes_at_most_once_witness :
  ∃ tl, trace (download_ net0 ["out"; "0.jpg"] ["bad://x"; "good://y"] w0).2 =
          trace w0 ++ tl ∧
    (written tl = [] ∨ written tl = [["out"; "0.jpg"]]) ∧
    (written tl = [["out"; "0.jpg"]] ↔
     exists_at (fs w0) ["out"; "0.jpg"] = false ∧
     ∃ v, (download_ net0 ["out"; "0.jpg"] ["bad://x"; "good://y"] w0).1 = Returned v).
Proof.
  exact (download__writes_at_most_once net0 ["out"; "0.jpg"] ["bad://x"; "good://y"] w0).
Defined.



(** X16.  A chapter acts inside its own directory and for its own pages:
    once the chapter page has resolved to [pages], every write of the
    chapter's batch is at the file [<i>.jpg], for a page index [i] of the
    chapter, of the directory that pathlib makes of [path / number]; that is
    [<path>/<number>/<i>.jpg] when the chapter number is a plain name.  Every
    request goes to one of the mirrors resolved for the chapter's pages. *)
Theorem download_chapter_confined net find_pg find_info path ch schedule w pages w1 :
  get_chapter_pages net find_pg find_info (url ch) w = (Returned pages, w1) →
  ∃ tl, trace (download_chapter net find_pg find_info path ch schedule w).2 =
          trace w1 ++ tl ∧
    (∀ p, p ∈ written tl →
       ∃ i, i < length pages ∧ p = (path /: number ch) ++ [pretty i +:+ ".jpg"]) ∧
    (plain (number ch) = true →
     ∀ p, p ∈ written tl →
       ∃ i, i < length pages ∧ p = path ++ [number ch; pretty i +:+ ".jpg"]) ∧
    (∀ u, u ∈ requested tl → ∃ page, page ∈ pages ∧ u ∈ page).
Proof.
  intros Hpages. unfold download_chapter. rewrite Hpages.
  destruct (gather_confined net (chapter_items path ch pages)
              (seq 0 (length (chapter_items path ch pages)) ++ schedule)
              (create_tasks (chapter_items path ch pages)) w1
              (create_tasks_item _)) as (tl & Htl & HF).
  unfold _download.
  destruct (gather net _ (create_tasks (chapter_items path ch pages)) w1)
    as [[r ts] w2].
  simpl in *. exists tl. split; [done|].
  assert (Hitem : ∀ it, it ∈ chapter_items path ch pages →
            ∃ i, i < length pages ∧
                 it.1 = (path /: number ch) ++ [pretty i +:+ ".jpg"] ∧
                 it.2 ∈ pages).
  { intros it Hit. apply list_elem_of_lookup_1 in Hit as [i Hi].
    rewrite chapter_items_lookup in Hi.
    destruct (pages !! i) as [page|] eqn:Hp; [|done]. injection Hi as <-.
    exists i. split; [by eapply lookup_lt_Some|]. split; [done|].
    by eapply list_elem_of_lookup_2. }
  assert (Hwritten : ∀ p, p ∈ written tl →
            ∃ i, i < length pages ∧
                 p = (path /: number ch) ++ [pretty i +:+ ".jpg"]).
  { intros p Hp. apply list_elem_of_omap in Hp as (ev & Hev & Hsome).
    destruct (proj1 (Forall_forall _ _) HF ev Hev) as (it & Hit & Hof).
    destruct ev as [c rq| | | |]; simpl in *; try done.
    injection Hsome as <-. destruct Hof as (-> & _).
    destruct (Hitem it Hit) as (i & Hi & Heq & _). by exists i. }
  split; [done|]. split.
  - intros Hplain p Hp. destruct (Hwritten p Hp) as (i & Hi & ->).
    exists i. split; [done|].
    by rewrite path_div_plain, <- app_assoc by done.
  - intros u Hu. apply list_elem_of_omap in Hu as (ev & Hev & Hsome).
    destruct (proj1 (Forall_forall _ _) HF ev Hev) as (it & Hit & Hof).
    destruct ev as [[] rq| | | |]; simpl in *; try done.
    injection Hsome as <-. destruct Hof as (_ & _ & Hin).
    destruct (Hitem it Hit) as (i & _ & _ & Hpage). by exists it.2.
Qed.

Lemma download_chapter_confined_witness :
  ∃ tl, trace (download_chapter net_site find_pg0 find_info0 ["out"; "jojo"]
                 (mkChapter "First" "1" "1" "https://mangalib.me/jojo/v1/c1")
                 schedule2 w0).2 =
          trace (get_chapter_pages net_site find_pg0 find_info0
                   "https://mangalib.me/jojo/v1/c1" w0).2 ++ tl ∧
    (∀ p, p ∈ written tl →
       ∃ i, i < 2 ∧ p = ["out"; "jojo"; "1"; pretty i +:+ ".jpg"]) ∧
    (∀ u, u ∈ requested tl →
       ∃ page, page ∈ [["bad://x/img/jojo/0.png"; "cdn://main/img/jojo/0.png"];
                       ["bad://x/img/jojo/1.png"; "cdn://main/img/jojo/1.png"]] ∧
               u ∈ page).
Proof.
  destruct (download_chapter_confined net_site find_pg0 find_info0 ["out"; "jojo"]
              (mkChapter "First" "1" "1" "https://mangalib.me/jojo/v1/c1") schedule2 w0
              [["bad://x/img/jojo/0.png"; "cdn://main/img/jojo/0.png"];
               ["bad://x/img/jojo/1.png"; "cdn://main/img/jojo/1.png"]]
              (get_chapter_pages net_site find_pg0 find_info0
                 "https://mangalib.me/jojo/v1/c1" w0).2 eq_refl)
    as (tl & Htl & _ & Hplain & Hreq).
  exists tl. split; [exact Htl|]. split; [exact (Hplain eq_refl)|exact Hreq].
Defined.
